(** * GRS PA02: TCP transfer benchmark (two-copy, one-copy, zero-copy)

    A shallow embedding of the message model of [MT25091_Common.h], of the
    session loops of the three servers and of the clients, and of the
    admission control of the accept loop, with the properties of the
    design document stated over them.

    Conventions.  A [size_t] or [unsigned long long] is a [Z] in
    [0, 2^64) with its wrap-around written out; an [int] or [ssize_t] that
    the code only compares and increments by one is a plain [Z], and a
    property that needs the [int] not to overflow says so.  A byte is
    a [Z] in [0, 256).  System calls are answered by the environment: every
    session is a deterministic step function from the state at a call site
    and the value the call returns to the state at the next call site.  In
    the sessions a clock reading is an exact rational; the summary of [main]
    is computed on IEEE binary64 numbers, as the program does. *)

From Stdlib Require Import ZArith QArith List Lia Lqa Bool Permutation.
From Stdlib Require Ascii String.
From Stdlib Require PrimFloat SpecFloat FloatOps.
Import ListNotations.

#[local] Open Scope Z_scope.

(** ** MT25091_Common.h *)

Module Common.

Definition NUM_STRING_FIELDS : Z := 8.

(** [size_t] and [unsigned long long] are both 64 bits wide. *)
Definition SIZE_MOD : Z := 2 ^ 64.

Definition size_mul (a b : Z) : Z := (a * b) mod SIZE_MOD.
Definition ull_add (a b : Z) : Z := (a + b) mod SIZE_MOD.

(** [typedef struct { char *field[NUM_STRING_FIELDS]; } Message;] *)
Record Message : Type := { field : list (list Z) }.

(** The statistics of [ClientContext], with [msg_size] and [duration]; the
    socket, the id and the pointer to the running flag are the
    environment's.  [double] is held as an exact rational. *)
Record ClientContext : Type :=
  { msg_size : Z;
    duration : Z;
    bytes_sent : Z;
    bytes_received : Z;
    messages_sent : Z;
    messages_received : Z;
    total_latency_us : Q }.

(** [memset(ctx, 0, sizeof(ClientContext))] and the fields set after it. *)
Definition new_context (size : Z) (dur : Z) : ClientContext :=
  {| msg_size := size; duration := dur;
     bytes_sent := 0; bytes_received := 0;
     messages_sent := 0; messages_received := 0;
     total_latency_us := 0%Q |}.

(** [ctx->bytes_received += n; ctx->messages_received++;] *)
Definition count_received (ctx : ClientContext) (n : Z) : ClientContext :=
  {| msg_size := msg_size ctx; duration := duration ctx;
     bytes_sent := bytes_sent ctx;
     bytes_received := ull_add (bytes_received ctx) n;
     messages_sent := messages_sent ctx;
     messages_received := ull_add (messages_received ctx) 1;
     total_latency_us := total_latency_us ctx |}.

(** [ctx->bytes_sent += n; ctx->messages_sent++;] *)
Definition count_sent (ctx : ClientContext) (n : Z) : ClientContext :=
  {| msg_size := msg_size ctx; duration := duration ctx;
     bytes_sent := ull_add (bytes_sent ctx) n;
     bytes_received := bytes_received ctx;
     messages_sent := ull_add (messages_sent ctx) 1;
     messages_received := messages_received ctx;
     total_latency_us := total_latency_us ctx |}.

(** [ctx->total_latency_us += d;] *)
Definition add_latency (ctx : ClientContext) (d : Q) : ClientContext :=
  {| msg_size := msg_size ctx; duration := duration ctx;
     bytes_sent := bytes_sent ctx;
     bytes_received := bytes_received ctx;
     messages_sent := messages_sent ctx;
     messages_received := messages_received ctx;
     total_latency_us := (total_latency_us ctx + d)%Q |}.

(** [size_t per_field_size = field_size / NUM_STRING_FIELDS;
     if (per_field_size == 0) per_field_size = 1;] *)
Definition per_field_size (field_size : Z) : Z :=
  let p := field_size / NUM_STRING_FIELDS in
  if p =? 0 then 1 else p.

(** [memset(p, c, n)]: [n] bytes, each [(unsigned char) c]. *)
Definition memset (c : Z) (n : Z) : list Z :=
  repeat (c mod 256) (Z.to_nat n).

(** [memcpy(dst + off, src, n)] on a buffer held as a list. *)
Definition memcpy (dst : list Z) (off : Z) (src : list Z) (n : Z) : list Z :=
  firstn (Z.to_nat off) dst ++ firstn (Z.to_nat n) src
    ++ skipn (Z.to_nat off + Z.to_nat n) dst.

(** ['A'] *)
Definition char_A : Z := 65.

(** The body of the [for] loop of [allocate_message], from index [i], with
    [n] iterations left.  [malloc_ok k] tells whether the [k]-th [malloc] of
    the call succeeds (call 0 is the [Message] itself, call [1 + i] is field
    [i]).  A failure frees what was allocated and returns [NULL]. *)
Fixpoint allocate_fields (malloc_ok : nat -> bool) (pfs : Z) (i n : nat)
    (acc : list (list Z)) : option (list (list Z)) :=
  match n with
  | O => Some acc
  | S n' =>
      if malloc_ok (S i)
      then allocate_fields malloc_ok pfs (S i) n'
             (acc ++ [memset (char_A + Z.of_nat i) pfs])
      else None
  end.

Definition allocate_message (malloc_ok : nat -> bool) (field_size : Z)
    : option Message :=
  if malloc_ok O then
    let pfs := per_field_size field_size in
    match allocate_fields malloc_ok pfs 0 (Z.to_nat NUM_STRING_FIELDS) [] with
    | Some fs => Some {| field := fs |}
    | None => None
    end
  else None.

(** The copy loop of [serialize_message]: [ptr] is the offset of the write
    position in [buffer]. *)
Fixpoint serialize_fields (msg : Message) (pfs : Z) (i n : nat) (ptr : Z)
    (buffer : list Z) : list Z :=
  match n with
  | O => buffer
  | S n' =>
      serialize_fields msg pfs (S i) n' (ptr + pfs)
        (memcpy buffer ptr (nth i (field msg) []) pfs)
  end.

(** [serialize_message(msg, field_size, &total_size)]: the buffer [malloc]
    returns holds [total_size] bytes of unspecified content, byte [k] being
    [fresh k], before the copies; the result is the buffer and [*total_size],
    or [None] for [NULL]. *)
Definition serialize_message (malloc_ok : bool) (fresh : nat -> Z)
    (msg : Message) (field_size : Z) : option (list Z * Z) :=
  let pfs := per_field_size field_size in
  let total_size := size_mul pfs NUM_STRING_FIELDS in
  if malloc_ok then
    Some (serialize_fields msg pfs 0 (Z.to_nat NUM_STRING_FIELDS) 0
            (map fresh (seq 0 (Z.to_nat total_size))),
          total_size)
  else None.

(** [struct iovec]: base buffer and length.  The one-copy client and
    server and the zero-copy server all fill the array the same way. *)
Record iovec : Type := { iov_base : list Z; iov_len : Z }.

(** [for (i = 0; i < NUM_STRING_FIELDS; i++)
       { iov[i].iov_base = msg->field[i]; iov[i].iov_len = per_field_size; }] *)
Fixpoint setup_iov (msg : Message) (pfs : Z) (i n : nat) : list iovec :=
  match n with
  | O => []
  | S n' =>
      {| iov_base := nth i (field msg) []; iov_len := pfs |}
        :: setup_iov msg pfs (S i) n'
  end.

(** The bytes [sendmsg] gathers from an iovec array, in order. *)
Definition gather (iov : list iovec) : list Z :=
  concat (map (fun v => firstn (Z.to_nat (iov_len v)) (iov_base v)) iov).

End Common.

(** ** What the environment answers at a call site *)

Module Env.

Inductive errno : Type :=
  EAGAIN | EWOULDBLOCK | ENOBUFS | EPIPE | ECONNRESET | EOTHER.

Definition errno_eqb (a b : errno) : bool :=
  match a, b with
  | EAGAIN, EAGAIN | EWOULDBLOCK, EWOULDBLOCK | ENOBUFS, ENOBUFS
  | EPIPE, EPIPE | ECONNRESET, ECONNRESET | EOTHER, EOTHER => true
  | _, _ => false
  end.

(** What [recvmsg(sockfd, &msg, MSG_ERRQUEUE)] leaves behind: its return
    value, [errno], and level and type of the first control message, if
    there is one. *)
Record errqueue_read : Type :=
  { rm_ret : Z; rm_errno : errno; rm_cmsg : option (Z * Z) }.

Inductive answer : Type :=
| Running (flag : Z)                 (* a read of the volatile running flag *)
| TimeSec (t : Q)                    (* get_time_sec() *)
| TimeUs (t : Q)                     (* get_time_us() *)
| Sent (n : Z) (e : errno)           (* send() or sendmsg() *)
| Received (n : Z) (e : errno)       (* recv() *)
| ErrQueue (r : errqueue_read).      (* recvmsg(MSG_ERRQUEUE) *)

(** The call a session is about to make, with the length it passes. *)
Inductive call : Type :=
| ReadRunning
| GetTimeSec
| GetTimeUs
| Send (buf : list Z) (len : Z)      (* send(fd, buf, len, 0) *)
| Sendmsg (wire : list Z) (zerocopy : bool)
| Recv (len : Z)
| PollErrQueue
| NoCall.

End Env.

(** ** MT25091_Part_A1_Server.c: the two-copy echo session *)

Module A1Server.
Import Common Env.

Inductive loc : Type :=
| AtRunning      (* while ( *(ctx->running))                  line 69 *)
| AtRecv         (* recv(fd, recv_buffer, buffer_size, 0)     line 73 *)
| AtSend         (* send(fd, send_buffer, buffer_size, 0)     line 88 *)
| Exited.        (* after cleanup *)

Record state : Type :=
  { pc : loc;
    ctx : ClientContext;
    send_buffer : list Z;
    buffer_size : Z }.

Definition goto (l : loc) (s : state) : state :=
  {| pc := l; ctx := ctx s;
     send_buffer := send_buffer s; buffer_size := buffer_size s |}.

Definition with_ctx (c : ClientContext) (s : state) : state :=
  {| pc := pc s; ctx := c;
     send_buffer := send_buffer s; buffer_size := buffer_size s |}.

(** Lines 44 to 66: the three allocations; any failure goes to [cleanup]. *)
Definition handle_client_start (msg_ok : nat -> bool) (ser_ok recv_ok : bool)
    (fresh : nat -> Z) (c : ClientContext) : state :=
  match allocate_message msg_ok (msg_size c) with
  | None => {| pc := Exited; ctx := c; send_buffer := []; buffer_size := 0 |}
  | Some msg =>
      match serialize_message ser_ok fresh msg (msg_size c) with
      | None =>
          {| pc := Exited; ctx := c; send_buffer := []; buffer_size := 0 |}
      | Some (buf, size) =>
          {| pc := if recv_ok then AtRunning else Exited;
             ctx := c; send_buffer := buf; buffer_size := size |}
      end
  end.

(** The call the session makes next. *)
Definition next_call (s : state) : call :=
  match pc s with
  | AtRunning => ReadRunning
  | AtRecv => Recv (buffer_size s)
  | AtSend => Send (send_buffer s) (buffer_size s)
  | Exited => NoCall
  end.

(** One turn of the loop of lines 69 to 99, from call site to call site;
    [None] when the answer is not one to the call that is pending. *)
Definition step (s : state) (a : answer) : option state :=
  match pc s, a with
  | AtRunning, Running flag =>
      Some (goto (if flag =? 0 then Exited else AtRecv) s)
  | AtRecv, Received bytes_recv _ =>
      if bytes_recv <=? 0 then Some (goto Exited s)
      else Some (goto AtSend (with_ctx (count_received (ctx s) bytes_recv) s))
  | AtSend, Sent bytes_sent _ =>
      if bytes_sent <=? 0 then Some (goto Exited s)
      else Some (goto AtRunning (with_ctx (count_sent (ctx s) bytes_sent) s))
  | _, _ => None
  end.

Fixpoint run (s : state) (answers : list answer) : option state :=
  match answers with
  | [] => Some s
  | a :: rest =>
      match step s a with
      | Some s' => run s' rest
      | None => None
      end
  end.

End A1Server.

(** ** MT25091_Part_A1_Client.c: the two-copy load generator *)

Module A1Client.
Import Common Env.

Inductive loc : Type :=
| AtStartTime    (* double start_time = get_time_sec();        line 61 *)
| AtRunning      (* *(ctx->running) of the outer loop          line 65 *)
| AtTimeSec      (* get_time_sec() < end_time                  line 65 *)
| AtSendStart    (* double send_start = get_time_us();         line 66 *)
| AtSend         (* send(fd, send_buffer, buffer_size, 0)      line 71 *)
| AtInnerRunning (* *(ctx->running) of the receive loop        line 87 *)
| AtRecv         (* recv(fd, recv_buffer + total_recv, ...)    line 88 *)
| AtSendEnd      (* double send_end = get_time_us();           line 99 *)
| AtFinalTime    (* get_time_sec() for actual_duration         line 108 *)
| Exited.        (* after cleanup *)

Record state : Type :=
  { pc : loc;
    ctx : ClientContext;
    send_buffer : list Z;
    buffer_size : Z;
    end_time : Q;
    send_start : Q;
    total_recv : Z }.

Definition goto (l : loc) (s : state) : state :=
  {| pc := l; ctx := ctx s;
     send_buffer := send_buffer s; buffer_size := buffer_size s;
     end_time := end_time s; send_start := send_start s;
     total_recv := total_recv s |}.

Definition with_ctx (c : ClientContext) (s : state) : state :=
  {| pc := pc s; ctx := c;
     send_buffer := send_buffer s; buffer_size := buffer_size s;
     end_time := end_time s; send_start := send_start s;
     total_recv := total_recv s |}.

Definition with_total_recv (n : Z) (s : state) : state :=
  {| pc := pc s; ctx := ctx s;
     send_buffer := send_buffer s; buffer_size := buffer_size s;
     end_time := end_time s; send_start := send_start s;
     total_recv := n |}.

(** [(ssize_t) buffer_size] *)
Definition to_ssize (x : Z) : Z :=
  if x <? 2 ^ 63 then x else x - 2 ^ 64.

(** Lines 38 to 51: the message and its serialized copy, [None] when an
    allocation fails. *)
Definition build_send_buffer (msg_ok : nat -> bool) (ser_ok : bool)
    (fresh : nat -> Z) (c : ClientContext) : option (list Z * Z) :=
  match allocate_message msg_ok (msg_size c) with
  | None => None
  | Some msg => serialize_message ser_ok fresh msg (msg_size c)
  end.

(** Lines 38 to 59. *)
Definition client_thread_start (msg_ok : nat -> bool) (ser_ok recv_ok : bool)
    (fresh : nat -> Z) (c : ClientContext) : state :=
  let stop buf size :=
    {| pc := Exited; ctx := c; send_buffer := buf; buffer_size := size;
       end_time := 0%Q; send_start := 0%Q; total_recv := 0 |} in
  match build_send_buffer msg_ok ser_ok fresh c with
  | None => stop [] 0
  | Some (buf, size) =>
      if recv_ok then goto AtStartTime (stop buf size) else stop buf size
  end.

(** The test of the receive loop, line 87: the flag is read only when the
    echo is not complete yet. *)
Definition enter_recv_loop (s : state) : state :=
  if total_recv s <? to_ssize (buffer_size s)
  then goto AtInnerRunning s
  else goto AtSendEnd s.

Definition next_call (s : state) : call :=
  match pc s with
  | AtStartTime | AtTimeSec | AtFinalTime => GetTimeSec
  | AtRunning | AtInnerRunning => ReadRunning
  | AtSendStart | AtSendEnd => GetTimeUs
  | AtSend => Send (send_buffer s) (buffer_size s)
  | AtRecv => Recv ((buffer_size s - total_recv s) mod SIZE_MOD)
  | Exited => NoCall
  end.

(** Lines 61 to 108, from call site to call site. *)
Definition step (s : state) (a : answer) : option state :=
  match pc s, a with
  | AtStartTime, TimeSec start_time =>
      Some {| pc := AtRunning; ctx := ctx s;
              send_buffer := send_buffer s; buffer_size := buffer_size s;
              end_time := (start_time + inject_Z (duration (ctx s)))%Q;
              send_start := send_start s; total_recv := total_recv s |}
  | AtRunning, Running flag =>
      Some (goto (if flag =? 0 then AtFinalTime else AtTimeSec) s)
  | AtTimeSec, TimeSec now =>
      if Qlt_le_dec now (end_time s)
      then Some (goto AtSendStart s)
      else Some (goto AtFinalTime s)
  | AtSendStart, TimeUs t =>
      Some {| pc := AtSend; ctx := ctx s;
              send_buffer := send_buffer s; buffer_size := buffer_size s;
              end_time := end_time s; send_start := t;
              total_recv := total_recv s |}
  | AtSend, Sent bytes_sent _ =>
      if bytes_sent <=? 0 then Some (goto AtFinalTime s)
      else Some (enter_recv_loop
                   (with_total_recv 0
                      (with_ctx (count_sent (ctx s) bytes_sent) s)))
  | AtInnerRunning, Running flag =>
      Some (goto (if flag =? 0 then AtSendEnd else AtRecv) s)
  | AtRecv, Received bytes_recv _ =>
      if bytes_recv <=? 0 then Some (goto Exited s)
      else Some (enter_recv_loop
                   (with_total_recv (total_recv s + bytes_recv) s))
  | AtSendEnd, TimeUs send_end =>
      Some (goto AtRunning
              (with_ctx
                 (add_latency (count_received (ctx s) (total_recv s))
                    (send_end - send_start s)%Q)
                 s))
  | AtFinalTime, TimeSec _ => Some (goto Exited s)
  | _, _ => None
  end.

Fixpoint run (s : state) (answers : list answer) : option state :=
  match answers with
  | [] => Some s
  | a :: rest =>
      match step s a with
      | Some s' => run s' rest
      | None => None
      end
  end.

End A1Client.

(** ** MT25091_Part_A1_Client.c: [main], from the thread creation to the
    summary *)

Module A1Main.
Import PrimFloat.

(** A [double] is an IEEE binary64 number, with the arithmetic of the
    processor. *)
Definition double : Set := float.

(** [(double) n] for an integer [n]: the nearest double, ties to even. *)
Definition double_of_Z (n : Z) : double :=
  FloatOps.SF2Prim
    (SpecFloat.binary_normalize FloatOps.prec FloatOps.emax n 0 false).

(** The statistics of a [ClientContext] as [main] reads them once the
    thread is joined; [total_latency_us] is the double itself. *)
Record ClientContext : Type :=
  { bytes_sent : Z;
    bytes_received : Z;
    messages_sent : Z;
    messages_received : Z;
    total_latency_us : double }.

(** The context a session of [client_thread] leaves behind: its counters,
    and [latency], the double its latency field holds. *)
Definition joined (c : Common.ClientContext) (latency : double)
    : ClientContext :=
  {| bytes_sent := Common.bytes_sent c;
     bytes_received := Common.bytes_received c;
     messages_sent := Common.messages_sent c;
     messages_received := Common.messages_received c;
     total_latency_us := latency |}.

(** A slot of [contexts].  The array comes from [malloc] and is never
    cleared, so a slot the creation loop did not write is [Unassigned]: it
    holds whatever the memory held. *)
Inductive slot : Type :=
| Unassigned
| Null
| Context (c : ClientContext).

(** How one turn of the creation loop, lines 159 to 203, ends; for a
    thread that runs, [c] is its context at the time it is joined. *)
Inductive attempt : Type :=
| InvalidAddress             (* inet_pton(...) <= 0: continue    line 171 *)
| ConnectFailed              (* connect(...) < 0: continue       line 178 *)
| NoContext                  (* contexts[i] = malloc(...) = NULL line 185 *)
| NoThread                   (* contexts[i] = NULL               line 200 *)
| Started (c : ClientContext).

(** What turn [i] of the creation loop leaves in [contexts[i]]. *)
Definition create_thread (a : attempt) : slot :=
  match a with
  | InvalidAddress | ConnectFailed => Unassigned
  | NoContext | NoThread => Null
  | Started c => Context c
  end.

Definition create_threads (attempts : list attempt) : list slot :=
  map create_thread attempts.

(** The sums of [main], lines 206 to 210. *)
Record totals : Type :=
  { total_bytes_sent : Z;
    total_bytes_recv : Z;
    total_messages : Z;
    total_latency : double;
    active_threads : Z }.

Definition no_totals : totals :=
  {| total_bytes_sent := 0; total_bytes_recv := 0; total_messages := 0;
     total_latency := 0%float; active_threads := 0 |}.

(** The body of the join loop for one slot, lines 213 to 223.  The test
    [if (contexts[i])] reads the slot: for an unassigned one the program
    does not determine what happens, which is [None]. *)
Definition join_one (t : totals) (s : slot) : option totals :=
  match s with
  | Unassigned => None
  | Null => Some t
  | Context c =>
      Some
        {| total_bytes_sent :=
             Common.ull_add (total_bytes_sent t) (bytes_sent c);
           total_bytes_recv :=
             Common.ull_add (total_bytes_recv t) (bytes_received c);
           total_messages :=
             Common.ull_add (total_messages t) (messages_sent c);
           total_latency := (total_latency t + total_latency_us c)%float;
           active_threads := active_threads t + 1 |}
  end.

(** The join loop, lines 212 to 224, from slot 0 on. *)
Fixpoint join_from (t : totals) (contexts : list slot) : option totals :=
  match contexts with
  | [] => Some t
  | s :: rest =>
      match join_one t s with
      | Some t' => join_from t' rest
      | None => None
      end
  end.

Definition join_all (contexts : list slot) : option totals :=
  join_from no_totals contexts.

(** [(double)(total_bytes_sent + total_bytes_recv) * 8.0
      / (duration * 1000000000.0)], line 232: the sum of the two totals wraps
    at 2^64 before it is converted, and [duration], an [int], is converted
    for the product. *)
Definition throughput_gbps (t : totals) (dur : Z) : double :=
  (double_of_Z (Common.ull_add (total_bytes_sent t) (total_bytes_recv t)) * 8
   / (double_of_Z dur * 1000000000))%float.

(** [total_latency / total_messages], line 234. *)
Definition avg_latency_us (t : totals) : double :=
  (total_latency t / double_of_Z (total_messages t))%float.

(** What the summary prints, lines 231 to 244. *)
Inductive report : Type :=
| Figures (throughput avg_latency : double)
| NoSuccessfulConnections.

(** Lines 206 to 244; [None] where the join loop read an unassigned
    slot. *)
Definition summary (contexts : list slot) (dur : Z) : option report :=
  match join_all contexts with
  | Some t =>
      if (0 <? active_threads t) && (0 <? total_messages t)
      then Some (Figures (throughput_gbps t dur) (avg_latency_us t))
      else Some NoSuccessfulConnections
  | None => None
  end.

End A1Main.

(** ** MT25091_Part_A2_Client.c: what the one-copy client sends *)

Module A2Client.
Import Common Env.

(** Lines 28 to 60: the message and the iovec array over its fields, [None]
    when the message cannot be allocated. *)
Definition build_iov (msg_ok : nat -> bool) (c : ClientContext)
    : option (list iovec) :=
  let pfs := per_field_size (msg_size c) in
  match allocate_message msg_ok (msg_size c) with
  | None => None
  | Some msg => Some (setup_iov msg pfs 0 (Z.to_nat NUM_STRING_FIELDS))
  end.

(** [sendmsg(ctx->socket_fd, &send_hdr, 0)], line 71. *)
Definition sendmsg_call (iov : list iovec) : call :=
  Sendmsg (gather iov) false.

(** The session of [client_thread], lines 62 to 104: the loop of the
    two-copy client with [sendmsg] over the iovec array in the place of
    [send]. *)
Inductive loc : Type :=
| AtStartTime    (* double start_time = get_time_sec();        line 62 *)
| AtRunning      (* *(ctx->running) of the outer loop          line 66 *)
| AtTimeSec      (* get_time_sec() < end_time                  line 66 *)
| AtSendStart    (* double send_start = get_time_us();         line 67 *)
| AtSendmsg      (* sendmsg(fd, &send_hdr, 0)                  line 71 *)
| AtInnerRunning (* *(ctx->running) of the receive loop        line 85 *)
| AtRecv         (* recv(fd, recv_buffer + total_recv, ...)    line 86 *)
| AtSendEnd      (* double send_end = get_time_us();           line 97 *)
| AtFinalTime    (* get_time_sec() for actual_duration         line 104 *)
| Exited.        (* after cleanup *)

Record state : Type :=
  { pc : loc;
    ctx : ClientContext;
    iov : list iovec;
    total_size : Z;
    end_time : Q;
    send_start : Q;
    total_recv : Z }.

Definition goto (l : loc) (s : state) : state :=
  {| pc := l; ctx := ctx s; iov := iov s; total_size := total_size s;
     end_time := end_time s; send_start := send_start s;
     total_recv := total_recv s |}.

Definition with_ctx (c : ClientContext) (s : state) : state :=
  {| pc := pc s; ctx := c; iov := iov s; total_size := total_size s;
     end_time := end_time s; send_start := send_start s;
     total_recv := total_recv s |}.

Definition with_total_recv (n : Z) (s : state) : state :=
  {| pc := pc s; ctx := ctx s; iov := iov s; total_size := total_size s;
     end_time := end_time s; send_start := send_start s;
     total_recv := n |}.

(** Lines 28 to 60. *)
Definition client_thread_start (msg_ok : nat -> bool) (recv_ok : bool)
    (c : ClientContext) : state :=
  let pfs := per_field_size (msg_size c) in
  let stop v :=
    {| pc := Exited; ctx := c; iov := v;
       total_size := size_mul pfs NUM_STRING_FIELDS;
       end_time := 0%Q; send_start := 0%Q; total_recv := 0 |} in
  match build_iov msg_ok c with
  | None => stop []
  | Some v => if recv_ok then goto AtStartTime (stop v) else stop []
  end.

(** The test of the receive loop, line 85. *)
Definition enter_recv_loop (s : state) : state :=
  if total_recv s <? A1Client.to_ssize (total_size s)
  then goto AtInnerRunning s
  else goto AtSendEnd s.

Definition next_call (s : state) : call :=
  match pc s with
  | AtStartTime | AtTimeSec | AtFinalTime => GetTimeSec
  | AtRunning | AtInnerRunning => ReadRunning
  | AtSendStart | AtSendEnd => GetTimeUs
  | AtSendmsg => sendmsg_call (iov s)
  | AtRecv => Recv ((total_size s - total_recv s) mod SIZE_MOD)
  | Exited => NoCall
  end.

Definition step (s : state) (a : answer) : option state :=
  match pc s, a with
  | AtStartTime, TimeSec start_time =>
      Some {| pc := AtRunning; ctx := ctx s;
              iov := iov s; total_size := total_size s;
              end_time := (start_time + inject_Z (duration (ctx s)))%Q;
              send_start := send_start s; total_recv := total_recv s |}
  | AtRunning, Running flag =>
      Some (goto (if flag =? 0 then AtFinalTime else AtTimeSec) s)
  | AtTimeSec, TimeSec now =>
      if Qlt_le_dec now (end_time s)
      then Some (goto AtSendStart s)
      else Some (goto AtFinalTime s)
  | AtSendStart, TimeUs t =>
      Some {| pc := AtSendmsg; ctx := ctx s;
              iov := iov s; total_size := total_size s;
              end_time := end_time s; send_start := t;
              total_recv := total_recv s |}
  | AtSendmsg, Sent bytes_sent _ =>
      if bytes_sent <=? 0 then Some (goto AtFinalTime s)
      else Some (enter_recv_loop
                   (with_total_recv 0
                      (with_ctx (count_sent (ctx s) bytes_sent) s)))
  | AtInnerRunning, Running flag =>
      Some (goto (if flag =? 0 then AtSendEnd else AtRecv) s)
  | AtRecv, Received bytes_recv _ =>
      if bytes_recv <=? 0 then Some (goto Exited s)
      else Some (enter_recv_loop
                   (with_total_recv (total_recv s + bytes_recv) s))
  | AtSendEnd, TimeUs send_end =>
      Some (goto AtRunning
              (with_ctx
                 (add_latency (count_received (ctx s) (total_recv s))
                    (send_end - send_start s)%Q)
                 s))
  | AtFinalTime, TimeSec _ => Some (goto Exited s)
  | _, _ => None
  end.

Fixpoint run (s : state) (answers : list answer) : option state :=
  match answers with
  | [] => Some s
  | a :: rest =>
      match step s a with
      | Some s' => run s' rest
      | None => None
      end
  end.

End A2Client.

(** ** MT25091_Part_A2_Server.c: the one-copy echo session *)

Module A2Server.
Import Common Env.

Inductive loc : Type :=
| AtRunning      (* while ( *(ctx->running))                  line 77 *)
| AtRecv         (* recv(fd, recv_buffer, total_size, 0)      line 79 *)
| AtSendmsg      (* sendmsg(fd, &send_msg, 0)                 line 95 *)
| Exited.        (* after cleanup *)

Record state : Type :=
  { pc : loc;
    ctx : ClientContext;
    iov : list iovec;
    total_size : Z }.

Definition goto (l : loc) (s : state) : state :=
  {| pc := l; ctx := ctx s; iov := iov s; total_size := total_size s |}.

Definition with_ctx (c : ClientContext) (s : state) : state :=
  {| pc := pc s; ctx := c; iov := iov s; total_size := total_size s |}.

(** Lines 37 to 74: the two allocations and the iovec array. *)
Definition handle_client_start (msg_ok : nat -> bool) (recv_ok : bool)
    (c : ClientContext) : state :=
  let pfs := per_field_size (msg_size c) in
  let total := size_mul pfs NUM_STRING_FIELDS in
  match allocate_message msg_ok (msg_size c) with
  | None => {| pc := Exited; ctx := c; iov := []; total_size := total |}
  | Some msg =>
      if recv_ok
      then {| pc := AtRunning; ctx := c;
              iov := setup_iov msg pfs 0 (Z.to_nat NUM_STRING_FIELDS);
              total_size := total |}
      else {| pc := Exited; ctx := c; iov := []; total_size := total |}
  end.

Definition next_call (s : state) : call :=
  match pc s with
  | AtRunning => ReadRunning
  | AtRecv => Recv (total_size s)
  | AtSendmsg => Sendmsg (gather (iov s)) false
  | Exited => NoCall
  end.

(** Lines 77 to 106, from call site to call site. *)
Definition step (s : state) (a : answer) : option state :=
  match pc s, a with
  | AtRunning, Running flag =>
      Some (goto (if flag =? 0 then Exited else AtRecv) s)
  | AtRecv, Received bytes_recv _ =>
      if bytes_recv <=? 0 then Some (goto Exited s)
      else Some (goto AtSendmsg
                   (with_ctx (count_received (ctx s) bytes_recv) s))
  | AtSendmsg, Sent bytes_sent _ =>
      if bytes_sent <=? 0 then Some (goto Exited s)
      else Some (goto AtRunning (with_ctx (count_sent (ctx s) bytes_sent) s))
  | _, _ => None
  end.

Fixpoint run (s : state) (answers : list answer) : option state :=
  match answers with
  | [] => Some s
  | a :: rest =>
      match step s a with
      | Some s' => run s' rest
      | None => None
      end
  end.

End A2Server.

(** ** MT25091_Part_A3_Server.c: the zero-copy echo session *)

Module A3Server.
Import Common Env.

(** Linux values of the two constants of [<linux/in.h>] the completion
    handler compares with. *)
Definition SOL_IP : Z := 0.
Definition IP_RECVERR : Z := 11.

(** [handle_zerocopy_completion], lines 77 to 99: 1 for a completion
    notification, 0 for none, -1 for an error of the error queue. *)
Definition handle_zerocopy_completion (r : errqueue_read) : Z :=
  if rm_ret r <? 0 then
    if errno_eqb (rm_errno r) EAGAIN || errno_eqb (rm_errno r) EWOULDBLOCK
    then 0
    else -1
  else
    match rm_cmsg r with
    | Some (level, type) =>
        if (level =? SOL_IP) && (type =? IP_RECVERR) then 1 else 0
    | None => 0
    end.

(** [const int max_pending = 8;] *)
Definition max_pending : Z := 8.

Inductive loc : Type :=
| AtRunning      (* while ( *(ctx->running))                   line 153 *)
| AtPollTop      (* handle_zerocopy_completion, loop head      line 156 *)
| AtRecv         (* recv(fd, recv_buffer, total_size, 0)       line 165 *)
| AtPollWait     (* handle_zerocopy_completion, before send    line 179 *)
| AtSendmsg      (* sendmsg(fd, &send_msg, MSG_ZEROCOPY)       line 189 *)
| AtPollEnobufs  (* handle_zerocopy_completion, after ENOBUFS  line 195 *)
| AtPollDrain    (* handle_zerocopy_completion, teardown       line 212 *)
| Exited.        (* after cleanup *)

(** [msg] is the message the iovec array points into, [None] for [NULL];
    [msg_freed] is set when [cleanup] has run [free_message(msg)]. *)
Record state : Type :=
  { pc : loc;
    ctx : ClientContext;
    total_size : Z;
    msg : option Message;
    msg_freed : bool;
    pending_completions : Z }.

Definition goto (l : loc) (s : state) : state :=
  {| pc := l; ctx := ctx s; total_size := total_size s; msg := msg s;
     msg_freed := msg_freed s;
     pending_completions := pending_completions s |}.

Definition with_ctx (c : ClientContext) (s : state) : state :=
  {| pc := pc s; ctx := c; total_size := total_size s; msg := msg s;
     msg_freed := msg_freed s;
     pending_completions := pending_completions s |}.

Definition with_pending (n : Z) (s : state) : state :=
  {| pc := pc s; ctx := ctx s; total_size := total_size s; msg := msg s;
     msg_freed := msg_freed s;
     pending_completions := n |}.

(** [cleanup:], lines 224 to 230. *)
Definition cleanup (s : state) : state :=
  {| pc := Exited; ctx := ctx s; total_size := total_size s; msg := msg s;
     msg_freed := match msg s with Some _ => true | None => false end;
     pending_completions := pending_completions s |}.

(** Lines 106 to 150.  On the two exits through [cleanup] the C variable
    [pending_completions] is not initialised yet, and is not read any more;
    the state holds 0 there. *)
Definition handle_client_start (msg_ok : nat -> bool) (recv_ok : bool)
    (c : ClientContext) : state :=
  let pfs := per_field_size (msg_size c) in
  let s m :=
    {| pc := AtRunning; ctx := c;
       total_size := size_mul pfs NUM_STRING_FIELDS;
       msg := m; msg_freed := false; pending_completions := 0 |} in
  match allocate_message msg_ok (msg_size c) with
  | None => cleanup (s None)
  | Some m => if recv_ok then s (Some m) else cleanup (s (Some m))
  end.

(** The tests of the four [while] loops on [pending_completions]. *)
Definition enter_poll_top (s : state) : state :=
  if 0 <? pending_completions s then goto AtPollTop s else goto AtRecv s.

Definition enter_poll_wait (s : state) : state :=
  if max_pending <=? pending_completions s
  then goto AtPollWait s
  else goto AtSendmsg s.

Definition enter_drain (s : state) : state :=
  if 0 <? pending_completions s then goto AtPollDrain s else cleanup s.

Definition next_call (s : state) : call :=
  match pc s with
  | AtRunning => ReadRunning
  | AtPollTop | AtPollWait | AtPollEnobufs | AtPollDrain => PollErrQueue
  | AtRecv => Recv (total_size s)
  | AtSendmsg =>
      match msg s with
      | Some m =>
          Sendmsg
            (gather (setup_iov m (per_field_size (msg_size (ctx s))) 0
                       (Z.to_nat NUM_STRING_FIELDS)))
            true
      | None => NoCall
      end
  | Exited => NoCall
  end.

(** Lines 153 to 218, from call site to call site. *)
Definition step (s : state) (a : answer) : option state :=
  match pc s, a with
  | AtRunning, Running flag =>
      if flag =? 0 then Some (enter_drain s) else Some (enter_poll_top s)
  | AtPollTop, ErrQueue r =>
      if 0 <? handle_zerocopy_completion r
      then Some (enter_poll_top
                   (with_pending (pending_completions s - 1) s))
      else Some (goto AtRecv s)
  | AtRecv, Received bytes_recv _ =>
      if bytes_recv <=? 0 then Some (enter_drain s)
      else Some (enter_poll_wait
                   (with_ctx (count_received (ctx s) bytes_recv) s))
  | AtPollWait, ErrQueue r =>
      let ret := handle_zerocopy_completion r in
      if 0 <? ret
      then Some (enter_poll_wait
                   (with_pending (pending_completions s - 1) s))
      else if ret <? 0 then Some (goto AtSendmsg s)
      else Some (enter_poll_wait s)
  | AtSendmsg, Sent bytes_sent e =>
      if bytes_sent <=? 0 then
        if (bytes_sent <? 0) && errno_eqb e ENOBUFS
        then Some (goto AtPollEnobufs s)
        else Some (enter_drain s)
      else
        Some (goto AtRunning
                (with_ctx (count_sent (ctx s) bytes_sent)
                   (with_pending (pending_completions s + 1) s)))
  | AtPollEnobufs, ErrQueue _ => Some (goto AtRunning s)
  | AtPollDrain, ErrQueue r =>
      if 0 <? handle_zerocopy_completion r
      then Some (enter_drain (with_pending (pending_completions s - 1) s))
      else Some (cleanup s)
  | _, _ => None
  end.

Fixpoint run (s : state) (answers : list answer) : option state :=
  match answers with
  | [] => Some s
  | a :: rest =>
      match step s a with
      | Some s' => run s' rest
      | None => None
      end
  end.

End A3Server.

(** ** The accept loop of the three servers and the session count *)

Module Admission.
Import Common.

(** Where [main] stands: at the test of its accept loop, at [accept],
    between the increment of [num_active_clients] and the outcome of the
    thread start for socket [new_socket], in the wait loop after the listening
    socket is closed, or returned. *)
Inductive main_loc : Type :=
| AtRunning
| AtAccept
| AtMallocCtx (new_socket : Z)
| AtPthreadCreate (new_socket : Z)
| AtWait
| Returned.

(** [sessions] are the client ids of the threads that run [handle_client]
    and have not yet decremented the count; [closed] are the sockets [main]
    closed itself. *)
Record server : Type :=
  { main_pc : main_loc;
    num_active_clients : Z;
    client_id : Z;
    sessions : list Z;
    closed : list Z }.

Definition server_start : server :=
  {| main_pc := AtRunning; num_active_clients := 0; client_id := 0;
     sessions := []; closed := [] |}.

Inductive event : Type :=
| Running (flag : Z)             (* a read of server_config.running *)
| Accepted (new_socket : Z)      (* accept() returned *)
| MallocCtx (ok : bool)          (* malloc(sizeof(ClientContext)) *)
| PthreadCreate (ok : bool)      (* pthread_create returned 0, or not *)
| Slept                          (* usleep(100000) returned *)
| SessionExit (id : Z).          (* the critical section at the end of
                                    handle_client, lines 117 to 119 *)

Fixpoint remove_first (id : Z) (l : list Z) : option (list Z) :=
  match l with
  | [] => None
  | x :: rest =>
      if x =? id then Some rest
      else match remove_first id rest with
           | Some rest' => Some (x :: rest')
           | None => None
           end
  end.

Definition main_goto (l : main_loc) (s : server) : server :=
  {| main_pc := l; num_active_clients := num_active_clients s;
     client_id := client_id s; sessions := sessions s;
     closed := closed s |}.

(** [pthread_mutex_lock; num_active_clients += d; pthread_mutex_unlock] *)
Definition locked_add (d : Z) (s : server) : server :=
  {| main_pc := main_pc s; num_active_clients := num_active_clients s + d;
     client_id := client_id s; sessions := sessions s;
     closed := closed s |}.

(** [close(new_socket)] in [main]. *)
Definition close_socket (new_socket : Z) (s : server) : server :=
  {| main_pc := main_pc s; num_active_clients := num_active_clients s;
     client_id := client_id s; sessions := sessions s;
     closed := new_socket :: closed s |}.

(** The test of [while (num_active_clients > 0)], line 243. *)
Definition enter_wait (s : server) : server :=
  if 0 <? num_active_clients s then main_goto AtWait s
  else main_goto Returned s.

(** One atomic step of the server: a statement sequence of [main] between
    two calls (every critical section lies within one), or the critical
    section with which a session leaves. *)
Definition step (max_threads : Z) (s : server) (e : event) : option server :=
  match e, main_pc s with
  | Running flag, AtRunning =>
      if flag =? 0 then Some (enter_wait s) else Some (main_goto AtAccept s)
  | Accepted new_socket, AtAccept =>
      if new_socket <? 0 then Some (main_goto AtRunning s)
      else if max_threads <=? num_active_clients s then
        Some (main_goto AtRunning (close_socket new_socket s))
      else
        Some (main_goto (AtMallocCtx new_socket) (locked_add 1 s))
  | MallocCtx ok, AtMallocCtx new_socket =>
      if ok then
        Some {| main_pc := AtPthreadCreate new_socket;
                num_active_clients := num_active_clients s;
                client_id := client_id s + 1;
                sessions := sessions s;
                closed := closed s |}
      else
        Some (main_goto AtRunning
                (locked_add (-1) (close_socket new_socket s)))
  | PthreadCreate ok, AtPthreadCreate new_socket =>
      if ok then
        Some {| main_pc := AtRunning;
                num_active_clients := num_active_clients s;
                client_id := client_id s;
                sessions := (client_id s - 1) :: sessions s;
                closed := closed s |}
      else
        Some (main_goto AtRunning
                (locked_add (-1) (close_socket new_socket s)))
  | Slept, AtWait => Some (enter_wait s)
  | SessionExit id, _ =>
      match remove_first id (sessions s) with
      | Some rest =>
          Some {| main_pc := main_pc s;
                  num_active_clients := num_active_clients s - 1;
                  client_id := client_id s;
                  sessions := rest;
                  closed := closed s |}
      | None => None
      end
  | _, _ => None
  end.

Fixpoint run (max_threads : Z) (s : server) (events : list event)
    : option server :=
  match events with
  | [] => Some s
  | e :: rest =>
      match step max_threads s e with
      | Some s' => run max_threads s' rest
      | None => None
      end
  end.

End Admission.

(** ** MT25091_Common.h: what allocation and release do to the heap *)

Module Heap.

(** The allocator: the blocks that are live, and the address the next block
    gets.  A pointer is [Some] address, or [None] for [NULL]. *)
Record heap : Type := { live : list nat; next : nat }.

Definition malloc (ok : bool) (h : heap) : option nat * heap :=
  if ok
  then (Some (next h), {| live := next h :: live h; next := S (next h) |})
  else (None, h).

Fixpoint remove_block (p : nat) (l : list nat) : list nat :=
  match l with
  | [] => []
  | x :: rest =>
      if Nat.eqb x p then remove_block p rest else x :: remove_block p rest
  end.

(** [free(p)]; [free(NULL)] does nothing. *)
Definition free (p : option nat) (h : heap) : heap :=
  match p with
  | Some a => {| live := remove_block a (live h); next := next h |}
  | None => h
  end.

(** A [Message] in memory: its own block and its 8 field pointers. *)
Record MessagePtr : Type := { self : nat; field_ptr : list (option nat) }.

(** [for (j = 0; j < i; j++) free(msg->field[j]);] over the fields
    allocated so far, and the loop of [free_message], which skips a [NULL]
    field. *)
Fixpoint free_fields (ptrs : list (option nat)) (h : heap) : heap :=
  match ptrs with
  | [] => h
  | p :: rest => free_fields rest (free p h)
  end.

(** The [for] loop of [allocate_message], lines 90 to 102, on the heap:
    [acc] are the fields allocated before index [i]. *)
Fixpoint allocate_fields (malloc_ok : nat -> bool) (msg : nat) (i n : nat)
    (acc : list (option nat)) (h : heap)
    : option (list (option nat)) * heap :=
  match n with
  | O => (Some acc, h)
  | S n' =>
      match malloc (malloc_ok (S i)) h with
      | (Some p, h') =>
          allocate_fields malloc_ok msg (S i) n' (acc ++ [Some p]) h'
      | (None, h') => (None, free (Some msg) (free_fields acc h'))
      end
  end.

(** [allocate_message], lines 83 to 104, on the heap. *)
Definition allocate_message (malloc_ok : nat -> bool) (h : heap)
    : option MessagePtr * heap :=
  match malloc (malloc_ok O) h with
  | (None, h') => (None, h')
  | (Some m, h') =>
      match allocate_fields malloc_ok m 0
              (Z.to_nat Common.NUM_STRING_FIELDS) [] h' with
      | (Some fs, h'') => (Some {| self := m; field_ptr := fs |}, h'')
      | (None, h'') => (None, h'')
      end
  end.

(** [free_message], lines 106 to 115. *)
Definition free_message (msg : option MessagePtr) (h : heap) : heap :=
  match msg with
  | Some m => free (Some (self m)) (free_fields (field_ptr m) h)
  | None => h
  end.

End Heap.

(** ** MT25091_Common.h: the command line *)

Module Args.
Import Ascii String.

Definition DEFAULT_PORT : Z := 8080.
Definition DEFAULT_MSG_SIZE : Z := 1024.
Definition DEFAULT_THREADS : Z := 4.
Definition DEFAULT_DURATION : Z := 10.

(** One answer of [getopt] before it returns -1: the option character (['?']
    for an option outside the option string) and [optarg]. *)
Definition getopt_answer : Type := (ascii * string)%type.

Record server_args : Type :=
  { port : Z; msg_size : Z; max_threads : Z }.

Record client_args : Type :=
  { host : string;
    client_port : Z;
    client_msg_size : Z;
    threads : Z;
    duration : Z }.

Section Parse.

(** [atoi] and [atol] of the C library. *)
Variables atoi atol : string -> Z.

(** The [while] loop of [parse_server_args], lines 182 to 197, over the
    answers of [getopt]; [None] is [print_usage] and [exit(EXIT_FAILURE)]. *)
Fixpoint parse_server_loop (answers : list getopt_answer) (a : server_args)
    : option server_args :=
  match answers with
  | [] => Some a
  | (opt, optarg) :: rest =>
      if Ascii.eqb opt "p" then
        parse_server_loop rest
          {| port := atoi optarg; msg_size := msg_size a;
             max_threads := max_threads a |}
      else if Ascii.eqb opt "s" then
        parse_server_loop rest
          {| port := port a; msg_size := atol optarg mod Common.SIZE_MOD;
             max_threads := max_threads a |}
      else if Ascii.eqb opt "t" then
        parse_server_loop rest
          {| port := port a; msg_size := msg_size a;
             max_threads := atoi optarg |}
      else None
  end.

(** [parse_server_args], lines 175 to 198. *)
Definition parse_server_args (answers : list getopt_answer)
    : option server_args :=
  parse_server_loop answers
    {| port := DEFAULT_PORT; msg_size := DEFAULT_MSG_SIZE;
       max_threads := DEFAULT_THREADS |}.

(** The [while] loop of [parse_client_args], lines 210 to 231. *)
Fixpoint parse_client_loop (answers : list getopt_answer) (a : client_args)
    : option client_args :=
  match answers with
  | [] => Some a
  | (opt, optarg) :: rest =>
      if Ascii.eqb opt "h" then
        parse_client_loop rest
          {| host := optarg; client_port := client_port a;
             client_msg_size := client_msg_size a; threads := threads a;
             duration := duration a |}
      else if Ascii.eqb opt "p" then
        parse_client_loop rest
          {| host := host a; client_port := atoi optarg;
             client_msg_size := client_msg_size a; threads := threads a;
             duration := duration a |}
      else if Ascii.eqb opt "s" then
        parse_client_loop rest
          {| host := host a; client_port := client_port a;
             client_msg_size := atol optarg mod Common.SIZE_MOD;
             threads := threads a; duration := duration a |}
      else if Ascii.eqb opt "t" then
        parse_client_loop rest
          {| host := host a; client_port := client_port a;
             client_msg_size := client_msg_size a; threads := atoi optarg;
             duration := duration a |}
      else if Ascii.eqb opt "d" then
        parse_client_loop rest
          {| host := host a; client_port := client_port a;
             client_msg_size := client_msg_size a; threads := threads a;
             duration := atoi optarg |}
      else None
  end.

(** [parse_client_args], lines 201 to 232. *)
Definition parse_client_args (answers : list getopt_answer)
    : option client_args :=
  parse_client_loop answers
    {| host := "127.0.0.1"; client_port := DEFAULT_PORT;
       client_msg_size := DEFAULT_MSG_SIZE; threads := DEFAULT_THREADS;
       duration := DEFAULT_DURATION |}.

End Parse.

End Args.

(** ** Notions the properties are stated with *)

Module Notions.
Import Common.

(** The fields a run of the allocation loop appends: [n] fields from index
    [i] on, field [k] made of [pfs] bytes ['A' + k]. *)
Definition pattern (pfs : Z) (i n : nat) : list (list Z) :=
  map (fun k => memset (char_A + Z.of_nat k) pfs) (seq i n).

(** The exact sum of a counter over the contexts of the threads that
    ran. *)
Fixpoint sum_Z (f : A1Main.ClientContext -> Z) (contexts : list A1Main.slot)
    : Z :=
  match contexts with
  | [] => 0
  | A1Main.Context c :: rest => f c + sum_Z f rest
  | _ :: rest => sum_Z f rest
  end.

(** The number of threads that ran. *)
Definition threads_joined (contexts : list A1Main.slot) : Z :=
  sum_Z (fun _ => 1) contexts.

(** The latencies of the threads that ran, added to [total] one after the
    other in the order of the array, each addition rounded. *)
Fixpoint sum_latency (total : A1Main.double) (contexts : list A1Main.slot)
    : A1Main.double :=
  match contexts with
  | [] => total
  | A1Main.Context c :: rest =>
      sum_latency (PrimFloat.add total (A1Main.total_latency_us c)) rest
  | _ :: rest => sum_latency total rest
  end.

(** The creation loop wrote the slot. *)
Definition assigned (s : A1Main.slot) : Prop := s <> A1Main.Unassigned.

(** The turn of the creation loop got its connection, so that it went on
    to write its slot. *)
Definition connected (a : A1Main.attempt) : Prop :=
  a <> A1Main.InvalidAddress /\ a <> A1Main.ConnectFailed.

(** The turn got its connection, but no thread to run on it. *)
Definition not_started (a : A1Main.attempt) : Prop :=
  a = A1Main.NoContext \/ a = A1Main.NoThread.

(** What the environment answers during one complete exchange of the
    two-copy client: the loop test passes at time [now], [send] takes the
    whole buffer of [B] bytes at [t0] and one [recv] brings the whole echo,
    at [t1]. *)
Definition complete_exchange (now t0 t1 : Q) (B : Z) : list Env.answer :=
  [Env.Running 1; Env.TimeSec now; Env.TimeUs t0; Env.Sent B Env.EOTHER;
   Env.Running 1; Env.Received B Env.EOTHER; Env.TimeUs t1].

(** The statistics after one complete exchange of [B] bytes that took [d]
    microseconds. *)
Definition count_exchange (B : Z) (d : Q) (c : ClientContext)
    : ClientContext :=
  add_latency (count_received (count_sent c B) B) d.

Fixpoint count_exchanges (B : Z) (d : Q) (M : nat) (c : ClientContext)
    : ClientContext :=
  match M with
  | O => c
  | S M' => count_exchanges B d M' (count_exchange B d c)
  end.

(** Three reads of the error queue: nothing there yet ([EAGAIN]), a
    failure of the queue itself, and one completion notification. *)
Definition no_notification : Env.answer :=
  Env.ErrQueue
    {| Env.rm_ret := -1; Env.rm_errno := Env.EAGAIN; Env.rm_cmsg := None |}.

Definition queue_error : Env.answer :=
  Env.ErrQueue
    {| Env.rm_ret := -1; Env.rm_errno := Env.EOTHER; Env.rm_cmsg := None |}.

Definition completion_ready : Env.answer :=
  Env.ErrQueue
    {| Env.rm_ret := 0; Env.rm_errno := Env.EOTHER;
       Env.rm_cmsg := Some (A3Server.SOL_IP, A3Server.IP_RECVERR) |}.

(** What the zero-copy session keeps true of [pending_completions] at its
    call sites. *)
Definition pending_consistent (s : A3Server.state) : Prop :=
  0 <= A3Server.pending_completions s /\
  (A3Server.pc s = A3Server.AtPollTop \/ A3Server.pc s = A3Server.AtPollDrain
   -> 0 < A3Server.pending_completions s) /\
  (A3Server.pc s = A3Server.AtPollWait ->
   A3Server.max_pending <= A3Server.pending_completions s).

(** No read of the error queue in the list fails. *)
Definition no_queue_error (answers : list Env.answer) : Prop :=
  Forall (fun a => match a with
                   | Env.ErrQueue r =>
                       0 <= A3Server.handle_zerocopy_completion r
                   | _ => True
                   end) answers.

(** 1 while [main] is between the increment of [num_active_clients] and
    the outcome of the thread start, 0 otherwise. *)
Definition starting (l : Admission.main_loc) : Z :=
  match l with
  | Admission.AtMallocCtx _ | Admission.AtPthreadCreate _ => 1
  | _ => 0
  end.

(** The count is the number of sessions running plus the one being
    started, and is within the maximum, or 0 when the maximum is negative. *)
Definition admission_consistent (max_threads : Z) (s : Admission.server)
    : Prop :=
  Admission.num_active_clients s
  = Z.of_nat (length (Admission.sessions s)) + starting (Admission.main_pc s)
  /\ Admission.num_active_clients s <= Z.max 0 max_threads.

(** Every live block lies below the next address, and no block is live
    twice. *)
Definition heap_ok (h : Heap.heap) : Prop :=
  NoDup (Heap.live h) /\ forall a, In a (Heap.live h) -> (a < Heap.next h)%nat.








(** Requests and responses go one by one.  In the echo server the count of
    messages received is the count of messages sent, plus one (modulo 2^64)
    while a response is due. *)
Definition server_counts_in_step (s : A1Server.state) : Prop :=
  let sent := Common.messages_sent (A1Server.ctx s) in
  let received := Common.messages_received (A1Server.ctx s) in
  match A1Server.pc s with
  | A1Server.AtRunning | A1Server.AtRecv => received = sent
  | A1Server.AtSend => received = Common.ull_add sent 1
  | A1Server.Exited => received = sent \/ received = Common.ull_add sent 1
  end.

(** In the client the count of messages sent is the count of echoes
    received, plus one (modulo 2^64) while an echo is awaited. *)
Definition client_counts_in_step (s : A1Client.state) : Prop :=
  let sent := Common.messages_sent (A1Client.ctx s) in
  let received := Common.messages_received (A1Client.ctx s) in
  match A1Client.pc s with
  | A1Client.AtInnerRunning | A1Client.AtRecv | A1Client.AtSendEnd =>
      sent = Common.ull_add received 1
  | A1Client.Exited => sent = received \/ sent = Common.ull_add received 1
  | _ => sent = received
  end.

(** [recv] never returns more than it was asked for: every answer to a
    [recv] of the client session from [s] on is at most the length passed. *)
Fixpoint recv_honest (s : A1Client.state) (answers : list Env.answer)
    : Prop :=
  match answers with
  | [] => True
  | a :: rest =>
      match A1Client.next_call s, a with
      | Env.Recv len, Env.Received n _ => n <= len
      | _, _ => True
      end
      /\ match A1Client.step s a with
         | Some s' => recv_honest s' rest
         | None => True
         end
  end.

(** The receive position of the client lies within its buffer, and strictly
    inside while the receive loop runs. *)
Definition recv_within_buffer (s : A1Client.state) : Prop :=
  0 <= A1Client.buffer_size s < Common.SIZE_MOD /\
  0 <= A1Client.total_recv s <= A1Client.buffer_size s /\
  (A1Client.pc s = A1Client.AtInnerRunning \/ A1Client.pc s = A1Client.AtRecv
   -> A1Client.total_recv s < A1Client.buffer_size s < 2 ^ 63).

(** The zero-copy session keeps the message it allocated, of the size it
    was configured with, until it exits. *)
Definition keeps_message (size : Z) (s : A3Server.state) : Prop :=
  Common.msg_size (A3Server.ctx s) = size /\
  A3Server.total_size s
  = Common.size_mul (Common.per_field_size size) Common.NUM_STRING_FIELDS /\
  (A3Server.pc s = A3Server.Exited
   \/ exists m, A3Server.msg s = Some m /\
                Common.field m = pattern (Common.per_field_size size) 0 8).

(** The count covers the sessions that run and the one being started, and
    [main] has returned only with the count at 0. *)
Definition shutdown_consistent (s : Admission.server) : Prop :=
  Admission.num_active_clients s
  = Z.of_nat (length (Admission.sessions s)) + starting (Admission.main_pc s)
  /\ (Admission.main_pc s = Admission.Returned ->
      Admission.num_active_clients s = 0).

(** 1 while the context of the session being started holds the latest
    client id and its thread does not run yet. *)
Definition id_taken (l : Admission.main_loc) : Z :=
  match l with
  | Admission.AtPthreadCreate _ => 1
  | _ => 0
  end.

(** The sessions that run have distinct client ids, all handed out
    before. *)
Definition ids_distinct (s : Admission.server) : Prop :=
  NoDup (Admission.sessions s) /\
  0 <= Admission.client_id s - id_taken (Admission.main_pc s) /\
  forall id, In id (Admission.sessions s) ->
             0 <= id < Admission.client_id s - id_taken (Admission.main_pc s).

(** The argument of the last occurrence of option [o] among the answers of
    [getopt], if there is one. *)
Fixpoint last_arg (o : Ascii.ascii) (answers : list Args.getopt_answer)
    : option String.string :=
  match answers with
  | [] => None
  | (opt, optarg) :: rest =>
      match last_arg o rest with
      | Some later => Some later
      | None => if Ascii.eqb opt o then Some optarg else None
      end
  end.

(** The value an option ends up with: its last argument, converted, or the
    default. *)
Definition setting {A : Type} (o : Ascii.ascii)
    (answers : list Args.getopt_answer) (convert : String.string -> A)
    (default : A) : A :=
  match last_arg o answers with
  | Some optarg => convert optarg
  | None => default
  end.

(** All options are among the characters [known]. *)
Definition all_known (known : list Ascii.ascii)
    (answers : list Args.getopt_answer) : bool :=
  forallb (fun r => existsb (Ascii.eqb (fst r)) known) answers.

(** The microsecond clock does not run backwards: every answer of
    [get_time_us] is at least [last], the one before it. *)
Fixpoint us_nondecreasing (last : Q) (answers : list Env.answer) : Prop :=
  match answers with
  | [] => True
  | Env.TimeUs t :: rest => (last <= t)%Q /\ us_nondecreasing t rest
  | _ :: rest => us_nondecreasing last rest
  end.

(** The latency so far is not negative, and the start of the exchange in
    progress is not later than the last reading [last] of the clock. *)
Definition latency_consistent (last : Q) (s : A1Client.state) : Prop :=
  (0 <= Common.total_latency_us (A1Client.ctx s))%Q /\
  (A1Client.pc s = A1Client.AtSend \/
   A1Client.pc s = A1Client.AtInnerRunning \/
   A1Client.pc s = A1Client.AtRecv \/
   A1Client.pc s = A1Client.AtSendEnd ->
   (A1Client.send_start s <= last)%Q).

(** The last reading of the microsecond clock after answer [a]. *)
Definition clock_after (last : Q) (a : Env.answer) : Q :=
  match a with
  | Env.TimeUs t => t
  | _ => last
  end.

End Notions.

(** * Properties *)

(** ** The message model *)

Module CommonFacts.
Import Common Notions.

Lemma per_field_size_max (S : Z) :
  0 <= S -> per_field_size S = Z.max 1 (S / 8).
Proof.
  intros HS. unfold per_field_size, NUM_STRING_FIELDS.
  pose proof (Z.div_pos S 8 HS ltac:(lia)) as Hq.
  destruct (Z.eqb_spec (S / 8) 0); lia.
Qed.

Lemma per_field_size_range (S : Z) :
  0 <= S < SIZE_MOD -> 1 <= per_field_size S /\ per_field_size S * 8 < SIZE_MOD.
Proof.
  intros [HS HM]. rewrite per_field_size_max by assumption.
  unfold SIZE_MOD in *.
  change (2 ^ 64) with 18446744073709551616 in *.
  pose proof (Z.mul_div_le S 8 ltac:(lia)) as Hle.
  lia.
Qed.

Lemma total_size_no_wrap (S : Z) :
  0 <= S < SIZE_MOD ->
  size_mul (per_field_size S) NUM_STRING_FIELDS = per_field_size S * 8.
Proof.
  intros HS. destruct (per_field_size_range S HS) as [H1 H2].
  unfold size_mul, NUM_STRING_FIELDS. apply Z.mod_small. lia.
Qed.

Lemma allocate_fields_some ok pfs n : forall i acc fs,
  allocate_fields ok pfs i n acc = Some fs -> fs = acc ++ pattern pfs i n.
Proof.
  induction n as [|n IH]; intros i acc fs; simpl.
  - intros [= <-]. unfold pattern. simpl. now rewrite app_nil_r.
  - destruct (ok (S i)); [|discriminate].
    intros H. apply IH in H. subst fs. unfold pattern. simpl.
    now rewrite <- app_assoc.
Qed.

Lemma allocate_fields_all_ok pfs n : forall i acc,
  allocate_fields (fun _ => true) pfs i n acc = Some (acc ++ pattern pfs i n).
Proof.
  induction n as [|n IH]; intros i acc; simpl.
  - unfold pattern. simpl. now rewrite app_nil_r.
  - rewrite IH. unfold pattern. simpl. now rewrite <- app_assoc.
Qed.

Lemma allocate_message_some ok S m :
  allocate_message ok S = Some m ->
  field m = pattern (per_field_size S) 0 8.
Proof.
  unfold allocate_message. destruct (ok O); [|discriminate].
  destruct (allocate_fields _ _ _ _ _) as [fs|] eqn:E; [|discriminate].
  intros [= <-]. simpl. apply allocate_fields_some in E. exact E.
Qed.

Lemma allocate_message_all_ok S :
  allocate_message (fun _ => true) S
  = Some {| field := pattern (per_field_size S) 0 8 |}.
Proof.
  unfold allocate_message. now rewrite allocate_fields_all_ok.
Qed.

Lemma nth_pattern pfs i n k :
  (k < n)%nat ->
  nth k (pattern pfs i n) [] = memset (char_A + Z.of_nat (i + k)) pfs.
Proof.
  intros Hk. unfold pattern.
  rewrite (nth_indep _ [] (memset (char_A + Z.of_nat O) pfs))
    by (rewrite length_map, length_seq; exact Hk).
  rewrite (map_nth (fun k => memset (char_A + Z.of_nat k) pfs)).
  now rewrite seq_nth.
Qed.

Lemma length_memset c n : length (memset c n) = Z.to_nat n.
Proof. unfold memset. apply repeat_length. Qed.

(** The copy loop writes, after what is already in place, the first [pfs]
    bytes of each remaining field: what [sendmsg] gathers from the iovec array
    over the same fields. *)
Lemma serialize_fields_gather msg pfs n : forall i ptr pre rest,
  0 <= ptr -> 0 <= pfs ->
  length pre = Z.to_nat ptr ->
  length rest = (n * Z.to_nat pfs)%nat ->
  (forall k, (i <= k < i + n)%nat ->
             (Z.to_nat pfs <= length (nth k (field msg) []))%nat) ->
  serialize_fields msg pfs i n ptr (pre ++ rest)
  = pre ++ gather (setup_iov msg pfs i n).
Proof.
  induction n as [|n IH]; intros i ptr pre rest Hptr Hpfs Hpre Hrest Hlen.
  - simpl in *. apply length_zero_iff_nil in Hrest. now subst rest.
  - simpl. unfold memcpy.
    rewrite <- Hpre.
    rewrite firstn_app, Nat.sub_diag, firstn_all. simpl firstn at 2.
    rewrite app_nil_r.
    rewrite skipn_app. rewrite skipn_all2 by lia.
    replace (length pre + Z.to_nat pfs - length pre)%nat
      with (Z.to_nat pfs) by lia.
    simpl app at 2.
    rewrite app_assoc.
    rewrite IH.
    + unfold gather. simpl. now rewrite <- app_assoc.
    + lia.
    + assumption.
    + rewrite length_app, length_firstn, Hpre.
      specialize (Hlen i ltac:(lia)). lia.
    + rewrite length_skipn, Hrest. simpl. lia.
    + intros k Hk. apply Hlen. lia.
Qed.

(** Byte [j] of [n] runs of [p] equal bytes, run [k] made of [f k]. *)
Lemma nth_concat_runs (f : nat -> Z) (p : nat) d : forall n i j,
  (0 < p)%nat -> (j < n * p)%nat ->
  nth j (concat (map (fun k => repeat (f k) p) (seq i n))) d
  = f (i + j / p)%nat.
Proof.
  induction n as [|n IH]; intros i j Hp Hj; [lia|].
  simpl. destruct (Nat.lt_ge_cases j p) as [Hlt | Hge].
  - rewrite app_nth1 by (rewrite repeat_length; exact Hlt).
    rewrite Nat.div_small by exact Hlt. rewrite Nat.add_0_r.
    apply nth_repeat_lt. exact Hlt.
  - rewrite app_nth2 by (rewrite repeat_length; exact Hge).
    rewrite repeat_length. rewrite IH by (simpl in Hj; lia).
    f_equal.
    replace j with ((j - p) + 1 * p)%nat at 2 by lia.
    rewrite Nat.div_add by lia. lia.
Qed.

Lemma gather_setup_iov msg pfs n : forall i,
  gather (setup_iov msg pfs i n)
  = concat (map (fun k => firstn (Z.to_nat pfs) (nth k (field msg) []))
              (seq i n)).
Proof.
  induction n as [|n IH]; intros i; [reflexivity|].
  unfold gather in *. simpl. now rewrite IH.
Qed.

Lemma firstn_memset c n : firstn (Z.to_nat n) (memset c n) = memset c n.
Proof. apply firstn_all2. rewrite length_memset. lia. Qed.

(** Over an allocated message the iovec array covers every field whole. *)
Lemma gather_allocated msg pfs :
  field msg = pattern pfs 0 8 ->
  gather (setup_iov msg pfs 0 8) = concat (field msg).
Proof.
  intros Hf. rewrite gather_setup_iov, Hf. f_equal.
  unfold pattern at 2. apply map_ext_in. intros k Hk. apply in_seq in Hk.
  rewrite nth_pattern by lia. simpl. apply firstn_memset.
Qed.

Lemma length_concat_pattern pfs n : forall i,
  length (concat (pattern pfs i n)) = (n * Z.to_nat pfs)%nat.
Proof.
  induction n as [|n IH]; intros i; [reflexivity|].
  unfold pattern in *. simpl.
  now rewrite length_app, length_memset, IH.
Qed.

(** The serialized copy of an allocated message: its fields, one after the
    other, whatever the fresh buffer held. *)
Lemma serialize_allocated ok fresh S m :
  0 <= S < SIZE_MOD ->
  allocate_message ok S = Some m ->
  serialize_message true fresh m S
  = Some (concat (field m), per_field_size S * 8).
Proof.
  intros HS Hm. apply allocate_message_some in Hm.
  destruct (per_field_size_range S HS) as [H1 H2].
  unfold serialize_message. rewrite total_size_no_wrap by assumption.
  f_equal. f_equal.
  change (Z.to_nat NUM_STRING_FIELDS) with 8%nat.
  rewrite <- (gather_allocated m (per_field_size S) Hm).
  rewrite <- (app_nil_l (map _ _)).
  rewrite serialize_fields_gather; try reflexivity; try lia.
  - rewrite length_map, length_seq. lia.
  - intros k Hk. rewrite Hm, nth_pattern by lia. rewrite length_memset. lia.
Qed.

Lemma in_pattern pfs i n seg :
  In seg (pattern pfs i n) -> length seg = Z.to_nat pfs.
Proof.
  unfold pattern. rewrite in_map_iff. intros (k & <- & _).
  apply length_memset.
Qed.

Lemma memset_letter i n :
  0 <= i < 8 -> memset (char_A + i) n = repeat (char_A + i) (Z.to_nat n).
Proof.
  intros Hi. unfold memset, char_A. now rewrite Z.mod_small by lia.
Qed.

(** The effective totals of the six sizes the design document lists. *)
Example effective_totals_listed :
  map (fun S => size_mul (per_field_size S) NUM_STRING_FIELDS)
      [1; 7; 8; 1023; 1024; 1000000]
  = [8; 8; 8; 1016; 1024; 1000000].
Proof. reflexivity. Qed.

(** C1, as stated, fails for a request of one byte: the message of 8
    segments of 1 byte serializes to 8 bytes, more than the requested size
    1. *)
Lemma effective_total_exceeds_request_of_one :
  exists m buf total,
    allocate_message (fun _ => true) 1 = Some m /\
    serialize_message true (fun _ => 0) m 1 = Some (buf, total) /\
    total = per_field_size 1 * 8 /\
    Z.of_nat (length buf) = total /\
    ~ total <= 1.
Proof.
  eexists _, _, _. split; [reflexivity|]. split; [reflexivity|].
  split; [reflexivity|]. split; [reflexivity|].
  vm_compute. intros H. apply H. reflexivity.
Qed.

(** C1, amended: for every requested size S >= 1 an allocated message has 8
    segments of per_segment_size = max(1, S / 8) bytes each and serializes to
    per_segment_size * 8 bytes; that total is at most S when S >= 8, and is 8
    (more than S) when S < 8. *)
Theorem segment_invariant S ok fresh m buf total :
  1 <= S < SIZE_MOD ->
  allocate_message ok S = Some m ->
  serialize_message true fresh m S = Some (buf, total) ->
  length (field m) = 8%nat /\
  (forall seg, In seg (field m) -> Z.of_nat (length seg) = per_field_size S) /\
  per_field_size S = Z.max 1 (S / 8) /\
  total = per_field_size S * 8 /\
  Z.of_nat (length buf) = total /\
  (8 <= S -> total <= S) /\
  (S < 8 -> total = 8).
Proof.
  intros HS Hm Hser.
  assert (HS0 : 0 <= S < SIZE_MOD) by lia.
  destruct (per_field_size_range S HS0) as [H1 H2].
  rewrite (serialize_allocated ok fresh S m HS0 Hm) in Hser.
  injection Hser as <- <-.
  pose proof (allocate_message_some ok S m Hm) as Hf.
  pose proof (per_field_size_max S ltac:(lia)) as Hmax.
  repeat split.
  - rewrite Hf. unfold pattern. now rewrite length_map, length_seq.
  - intros seg Hin. rewrite Hf in Hin. apply in_pattern in Hin. lia.
  - exact Hmax.
  - rewrite Hf, length_concat_pattern. lia.
  - intros H8. rewrite Hmax.
    pose proof (Z.mul_div_le S 8 ltac:(lia)).
    assert (1 <= S / 8) by (apply Z.div_le_lower_bound; lia). lia.
  - intros H8. rewrite Hmax. rewrite Z.div_small by lia. reflexivity.
Qed.

Lemma segment_invariant_witness :
  length [[65]; [66]; [67]; [68]; [69]; [70]; [71]; [72]] = 8%nat /\
  (forall seg, In seg [[65]; [66]; [67]; [68]; [69]; [70]; [71]; [72]] ->
     Z.of_nat (length seg) = per_field_size 8) /\
  per_field_size 8 = Z.max 1 (8 / 8) /\
  8 = per_field_size 8 * 8 /\
  Z.of_nat (length [65; 66; 67; 68; 69; 70; 71; 72]) = 8 /\
  (8 <= 8 -> 8 <= 8) /\
  (8 < 8 -> 8 = 8).
Proof.
  apply (segment_invariant 8 (fun _ => true) (fun _ => 0)
           {| field := [[65]; [66]; [67]; [68]; [69]; [70]; [71]; [72]] |}
           [65; 66; 67; 68; 69; 70; 71; 72] 8).
  - split; [discriminate | reflexivity].
  - reflexivity.
  - reflexivity.
Defined.

(** C10: message construction is deterministic.  Segment i of an allocated
    message is per_segment_size bytes 'A' + i, byte j of the serialized buffer
    is 'A' + j / per_segment_size, and message and buffer are the same for
    every allocation of the same size, whatever the allocator did and whatever
    the fresh buffer held. *)
Theorem payload_deterministic S ok fresh m buf total :
  0 <= S < SIZE_MOD ->
  allocate_message ok S = Some m ->
  serialize_message true fresh m S = Some (buf, total) ->
  (forall i, 0 <= i < 8 ->
     nth (Z.to_nat i) (field m) []
     = repeat (char_A + i) (Z.to_nat (per_field_size S))) /\
  (forall j, 0 <= j < total ->
     nth (Z.to_nat j) buf 0 = char_A + j / per_field_size S) /\
  (forall ok' fresh' m' buf' total',
     allocate_message ok' S = Some m' ->
     serialize_message true fresh' m' S = Some (buf', total') ->
     m' = m /\ buf' = buf /\ total' = total).
Proof.
  intros HS Hm Hser.
  destruct (per_field_size_range S HS) as [H1 H2].
  rewrite (serialize_allocated ok fresh S m HS Hm) in Hser.
  injection Hser as <- <-.
  pose proof (allocate_message_some ok S m Hm) as Hf.
  split; [|split].
  - intros i Hi. rewrite Hf, nth_pattern by lia. simpl.
    rewrite Z2Nat.id by lia. apply memset_letter. exact Hi.
  - intros j Hj. rewrite Hf. unfold pattern, memset.
    assert (Hq : 0 <= j / per_field_size S < 8).
    { split; [apply Z.div_pos; lia|apply Z.div_lt_upper_bound; lia]. }
    rewrite (nth_concat_runs (fun k => (char_A + Z.of_nat k) mod 256)) by lia.
    rewrite Nat.add_0_l, <- Z2Nat.inj_div by lia. rewrite Z2Nat.id by lia.
    unfold char_A. apply Z.mod_small. lia.
  - intros ok' fresh' m' buf' total' Hm' Hser'.
    rewrite (serialize_allocated ok' fresh' S m' HS Hm') in Hser'.
    injection Hser' as <- <-.
    pose proof (allocate_message_some ok' S m' Hm') as Hf'.
    assert (m' = m) as ->; [|auto].
    destruct m as [f], m' as [f']. simpl in *. congruence.
Qed.

Lemma payload_deterministic_witness :
  (forall i, 0 <= i < 8 ->
     nth (Z.to_nat i)
       [[65; 65]; [66; 66]; [67; 67]; [68; 68];
        [69; 69]; [70; 70]; [71; 71]; [72; 72]] []
     = repeat (char_A + i) (Z.to_nat (per_field_size 16))) /\
  (forall j, 0 <= j < 16 ->
     nth (Z.to_nat j)
       [65; 65; 66; 66; 67; 67; 68; 68; 69; 69; 70; 70; 71; 71; 72; 72] 0
     = char_A + j / per_field_size 16) /\
  (forall ok' fresh' m' buf' total',
     allocate_message ok' 16 = Some m' ->
     serialize_message true fresh' m' 16 = Some (buf', total') ->
     m' = {| field := [[65; 65]; [66; 66]; [67; 67]; [68; 68];
                       [69; 69]; [70; 70]; [71; 71]; [72; 72]] |} /\
     buf' = [65; 65; 66; 66; 67; 67; 68; 68;
             69; 69; 70; 70; 71; 71; 72; 72] /\
     total' = 16).
Proof.
  apply (payload_deterministic 16 (fun _ => true) (fun k => Z.of_nat k)
           {| field := [[65; 65]; [66; 66]; [67; 67]; [68; 68];
                        [69; 69]; [70; 70]; [71; 71]; [72; 72]] |}
           [65; 65; 66; 66; 67; 67; 68; 68; 69; 69; 70; 70; 71; 71; 72; 72]
           16).
  - split; [discriminate | reflexivity].
  - reflexivity.
  - reflexivity.
Defined.

End CommonFacts.

(** ** Full copy and scatter-gather send the same bytes *)

Module StrategyFacts.
Import Common Notions CommonFacts.

(** C9: for every message size, the bytes the one-copy client hands to
    sendmsg (its 8 iovec segments, in order) are the bytes of the buffer the
    two-copy client hands to send (the serialized message), all [total_size]
    of them. *)
Theorem scatter_gather_wire_equals_full_copy
    (c : ClientContext) ok1 ser_ok ok2 fresh buf total iov :
  0 <= msg_size c < SIZE_MOD ->
  A1Client.build_send_buffer ok1 ser_ok fresh c = Some (buf, total) ->
  A2Client.build_iov ok2 c = Some iov ->
  length iov = 8%nat /\
  gather iov = firstn (Z.to_nat total) buf /\
  firstn (Z.to_nat total) buf = buf /\
  A2Client.sendmsg_call iov = Env.Sendmsg buf false.
Proof.
  intros HS H1 H2.
  unfold A1Client.build_send_buffer in H1.
  destruct (allocate_message ok1 (msg_size c)) as [m1|] eqn:E1;
    [|discriminate].
  assert (ser_ok = true) as ->.
  { destruct ser_ok; [reflexivity|discriminate]. }
  rewrite (serialize_allocated ok1 fresh _ m1 HS E1) in H1.
  injection H1 as <- <-.
  unfold A2Client.build_iov in H2.
  destruct (allocate_message ok2 (msg_size c)) as [m2|] eqn:E2;
    [|discriminate].
  injection H2 as <-.
  pose proof (allocate_message_some _ _ _ E1) as F1.
  pose proof (allocate_message_some _ _ _ E2) as F2.
  change (Z.to_nat NUM_STRING_FIELDS) with 8%nat.
  destruct (per_field_size_range _ HS) as [Hp1 Hp2].
  assert (Hall : firstn (Z.to_nat (per_field_size (msg_size c) * 8))
                   (concat (field m1)) = concat (field m1)).
  { apply firstn_all2. rewrite F1, length_concat_pattern. lia. }
  assert (Hg : gather (setup_iov m2 (per_field_size (msg_size c)) 0 8)
               = concat (field m1)).
  { rewrite (gather_allocated m2 _ F2). congruence. }
  split; [reflexivity|]. split; [|split].
  - now rewrite Hall.
  - exact Hall.
  - exact (f_equal (fun wire => Env.Sendmsg wire false) Hg).
Qed.

Lemma scatter_gather_wire_equals_full_copy_witness :
  length (setup_iov
            {| field := [[65]; [66]; [67]; [68]; [69]; [70]; [71]; [72]] |}
            1 0 8) = 8%nat /\
  gather (setup_iov
            {| field := [[65]; [66]; [67]; [68]; [69]; [70]; [71]; [72]] |}
            1 0 8)
  = firstn (Z.to_nat 8) [65; 66; 67; 68; 69; 70; 71; 72] /\
  firstn (Z.to_nat 8) [65; 66; 67; 68; 69; 70; 71; 72]
  = [65; 66; 67; 68; 69; 70; 71; 72] /\
  A2Client.sendmsg_call
    (setup_iov
       {| field := [[65]; [66]; [67]; [68]; [69]; [70]; [71]; [72]] |}
       1 0 8)
  = Env.Sendmsg [65; 66; 67; 68; 69; 70; 71; 72] false.
Proof.
  apply (scatter_gather_wire_equals_full_copy
           (new_context 8 1) (fun _ => true) true (fun _ => true)
           (fun _ => 0)
           [65; 66; 67; 68; 69; 70; 71; 72] 8).
  - split; [discriminate | reflexivity].
  - reflexivity.
  - reflexivity.
Defined.

End StrategyFacts.

(** ** The two-copy sessions *)

Module A1Facts.
Import Common Env Notions CommonFacts.




Lemma server_step_keeps_buffer s a s' :
  A1Server.step s a = Some s' ->
  A1Server.send_buffer s' = A1Server.send_buffer s /\
  A1Server.buffer_size s' = A1Server.buffer_size s.
Proof.
  unfold A1Server.step.
  destruct (A1Server.pc s), a; try discriminate;
    repeat match goal with
           | |- context [if ?b then _ else _] => destruct b
           end;
    intros [= <-]; split; reflexivity.
Qed.

Lemma server_run_keeps_buffer answers : forall s s',
  A1Server.run s answers = Some s' ->
  A1Server.send_buffer s' = A1Server.send_buffer s /\
  A1Server.buffer_size s' = A1Server.buffer_size s.
Proof.
  induction answers as [|a rest IH]; intros s s'; simpl.
  - intros [= <-]. split; reflexivity.
  - destruct (A1Server.step s a) as [s1|] eqn:E; [|discriminate].
    intros H. apply IH in H. apply server_step_keeps_buffer in E.
    destruct H, E. split; congruence.
Qed.

Lemma server_run_from_exited s answers s' :
  A1Server.pc s = A1Server.Exited ->
  A1Server.run s answers = Some s' -> s' = s.
Proof.
  intros Hs. destruct answers as [|a rest]; simpl.
  - now intros [= <-].
  - unfold A1Server.step. rewrite Hs. discriminate.
Qed.

(** A session that got past its allocations holds the serialized message. *)
Lemma server_start_buffer msg_ok ser_ok recv_ok fresh c :
  0 <= msg_size c < SIZE_MOD ->
  A1Server.pc (A1Server.handle_client_start msg_ok ser_ok recv_ok fresh c)
  <> A1Server.Exited ->
  A1Server.buffer_size
    (A1Server.handle_client_start msg_ok ser_ok recv_ok fresh c)
  = per_field_size (msg_size c) * 8 /\
  A1Server.send_buffer
    (A1Server.handle_client_start msg_ok ser_ok recv_ok fresh c)
  = concat (pattern (per_field_size (msg_size c)) 0 8).
Proof.
  intros HS. unfold A1Server.handle_client_start.
  destruct (allocate_message msg_ok (msg_size c)) as [m|] eqn:Em;
    [|intros H; now elim H].
  destruct ser_ok; [|intros H; now elim H].
  rewrite (serialize_allocated msg_ok fresh _ m HS Em). simpl.
  intros _. split; [reflexivity|].
  now rewrite (allocate_message_some _ _ _ Em).
Qed.

(** C6, as stated, fails: the server receives 3 bytes of a request and
    answers with a [send] of its whole 8-byte buffer; 3 bytes are counted as
    received and 8 as sent. *)
Lemma response_longer_than_partial_request :
  exists s s',
    A1Server.run
      (A1Server.handle_client_start (fun _ => true) true true (fun _ => 0)
         (new_context 8 0))
      [Running 1; Received 3 EOTHER] = Some s /\
    bytes_received (A1Server.ctx s) = 3 /\
    A1Server.next_call s = Send [65; 66; 67; 68; 69; 70; 71; 72] 8 /\
    A1Server.step s (Sent 8 EOTHER) = Some s' /\
    bytes_sent (A1Server.ctx s') = 8 /\
    bytes_sent (A1Server.ctx s') <> bytes_received (A1Server.ctx s').
Proof.
  eexists _, _. split; [reflexivity|]. split; [reflexivity|].
  split; [reflexivity|]. split; [reflexivity|]. split; [reflexivity|].
  discriminate.
Qed.

(** C6, amended: whatever number R > 0 of bytes a [recv] of the server
    obtains, the response the server transmits is one [send] of its whole
    serialized buffer, per_segment_size * 8 bytes long; R bytes are counted as
    received, and the bytes counted as sent are those the [send] reports.  The
    response has the length of the request only when R is that full size. *)
Theorem echo_response_is_full_buffer
    msg_ok ser_ok recv_ok fresh c answers s R e :
  0 <= msg_size c < SIZE_MOD ->
  A1Server.run (A1Server.handle_client_start msg_ok ser_ok recv_ok fresh c)
    answers = Some s ->
  A1Server.pc s = A1Server.AtRecv ->
  0 < R ->
  exists s',
    A1Server.step s (Received R e) = Some s' /\
    bytes_received (A1Server.ctx s')
    = ull_add (bytes_received (A1Server.ctx s)) R /\
    A1Server.next_call s'
    = Send (concat (pattern (per_field_size (msg_size c)) 0 8))
        (per_field_size (msg_size c) * 8) /\
    Z.of_nat (length (concat (pattern (per_field_size (msg_size c)) 0 8)))
    = per_field_size (msg_size c) * 8 /\
    (forall n e', 0 < n ->
       exists s'', A1Server.step s' (Sent n e') = Some s'' /\
                   bytes_sent (A1Server.ctx s'')
                   = ull_add (bytes_sent (A1Server.ctx s')) n).
Proof.
  intros HS Hrun Hpc HR.
  assert (Hstart :
    A1Server.pc (A1Server.handle_client_start msg_ok ser_ok recv_ok fresh c)
    <> A1Server.Exited).
  { intros Hex. apply (server_run_from_exited _ _ _ Hex) in Hrun.
    subst s. congruence. }
  destruct (server_start_buffer msg_ok ser_ok recv_ok fresh c HS Hstart)
    as [Hsize Hbuf].
  destruct (server_run_keeps_buffer _ _ _ Hrun) as [Hb Hz].
  rewrite Hbuf in Hb. rewrite Hsize in Hz.
  destruct (per_field_size_range _ HS) as [Hp1 Hp2].
  unfold A1Server.step. rewrite Hpc.
  destruct (Z.leb_spec R 0) as [Hle | _]; [lia|].
  eexists. split; [reflexivity|]. split; [reflexivity|].
  split; [|split].
  - unfold A1Server.next_call. simpl. now rewrite Hb, Hz.
  - rewrite length_concat_pattern. lia.
  - intros n e' Hn. simpl.
    destruct (Z.leb_spec n 0) as [Hle | _]; [lia|].
    eexists. split; reflexivity.
Qed.

Lemma echo_response_is_full_buffer_witness :
  exists s',
    A1Server.step
      {| A1Server.pc := A1Server.AtRecv; A1Server.ctx := new_context 8 0;
         A1Server.send_buffer := [65; 66; 67; 68; 69; 70; 71; 72];
         A1Server.buffer_size := 8 |}
      (Received 3 EOTHER) = Some s' /\
    bytes_received (A1Server.ctx s') = ull_add 0 3 /\
    A1Server.next_call s'
    = Send (concat (pattern (per_field_size 8) 0 8)) (per_field_size 8 * 8) /\
    Z.of_nat (length (concat (pattern (per_field_size 8) 0 8)))
    = per_field_size 8 * 8 /\
    (forall n e', 0 < n ->
       exists s'', A1Server.step s' (Sent n e') = Some s'' /\
                   bytes_sent (A1Server.ctx s'')
                   = ull_add (bytes_sent (A1Server.ctx s')) n).
Proof.
  apply (echo_response_is_full_buffer (fun _ => true) true true
           (fun _ => 0)
           (new_context 8 0) [Running 1]
           {| A1Server.pc := A1Server.AtRecv; A1Server.ctx := new_context 8 0;
              A1Server.send_buffer := [65; 66; 67; 68; 69; 70; 71; 72];
              A1Server.buffer_size := 8 |}
           3 EOTHER).
  - split; [discriminate | reflexivity].
  - reflexivity.
  - reflexivity.
  - reflexivity.
Defined.

End A1Facts.

(** ** The summary of the load generator *)

Module SummaryFacts.
Import Common Env Notions.
Import A1Client.

Lemma run_app answers1 : forall s answers2,
  run s (answers1 ++ answers2)
  = match run s answers1 with
    | Some s' => run s' answers2
    | None => None
    end.
Proof.
  induction answers1 as [|a rest IH]; intros s answers2; simpl.
  - reflexivity.
  - destruct (step s a); [apply IH|reflexivity].
Qed.

(** One complete exchange, from the loop test back to the loop test. *)
Lemma run_complete_exchange s now t0 t1 :
  pc s = AtRunning ->
  (now < end_time s)%Q ->
  0 < buffer_size s < 2 ^ 63 ->
  exists s',
    run s (complete_exchange now t0 t1 (buffer_size s)) = Some s' /\
    pc s' = AtRunning /\
    end_time s' = end_time s /\
    buffer_size s' = buffer_size s /\
    ctx s' = count_exchange (buffer_size s) (t1 - t0) (ctx s).
Proof.
  destruct s as [l c buf B e0 t r]. simpl. intros -> Hnow HB.
  assert (Hss : to_ssize B = B).
  { unfold to_ssize. destruct (Z.ltb_spec B (2 ^ 63)); lia. }
  assert (Hle0 : (B <=? 0) = false) by (apply Z.leb_gt; lia).
  assert (Hlt0 : (0 <? B) = true) by (apply Z.ltb_lt; lia).
  assert (Hirr : (B <? B) = false) by apply Z.ltb_irrefl.
  unfold step, enter_recv_loop, goto, with_ctx, with_total_recv.
  cbn -[to_ssize Z.ltb Z.leb].
  destruct (Qlt_le_dec now e0) as [_|Hle];
    [|exfalso; exact (Qlt_not_le _ _ Hnow Hle)].
  repeat (cbn -[to_ssize Z.ltb Z.leb]; rewrite ?Hle0, ?Hss, ?Hlt0, ?Hirr).
  eexists. split; [reflexivity|]. repeat split.
Qed.

(** [M] complete exchanges in a row. *)
Lemma run_complete_exchanges now t0 t1 (M : nat) : forall s,
  pc s = AtRunning ->
  (now < end_time s)%Q ->
  0 < buffer_size s < 2 ^ 63 ->
  exists s',
    run s (concat (repeat (complete_exchange now t0 t1 (buffer_size s)) M))
    = Some s' /\
    pc s' = AtRunning /\
    ctx s' = count_exchanges (buffer_size s) (t1 - t0) M (ctx s).
Proof.
  induction M as [|M IH]; intros s Hpc Hnow HB.
  - exists s. repeat split. exact Hpc.
  - destruct (run_complete_exchange s now t0 t1 Hpc Hnow HB)
      as (s1 & Hrun & Hpc1 & Hend & Hbuf & Hctx).
    destruct (IH s1 Hpc1) as (s2 & Hrun2 & Hpc2 & Hctx2).
    + now rewrite Hend.
    + now rewrite Hbuf.
    + exists s2.
      change (concat (repeat (complete_exchange now t0 t1 (buffer_size s))
                        (S M)))
        with (complete_exchange now t0 t1 (buffer_size s)
              ++ concat (repeat (complete_exchange now t0 t1 (buffer_size s))
                           M)).
      rewrite run_app, Hrun.
      rewrite Hbuf in Hrun2, Hctx2. rewrite Hctx in Hctx2.
      repeat split; assumption.
Qed.

Lemma count_exchanges_counters B d (M : nat) : forall c,
  bytes_sent c mod SIZE_MOD = bytes_sent c ->
  bytes_received c mod SIZE_MOD = bytes_received c ->
  messages_sent c mod SIZE_MOD = messages_sent c ->
  messages_received c mod SIZE_MOD = messages_received c ->
  bytes_sent (count_exchanges B d M c)
  = (bytes_sent c + Z.of_nat M * B) mod SIZE_MOD /\
  bytes_received (count_exchanges B d M c)
  = (bytes_received c + Z.of_nat M * B) mod SIZE_MOD /\
  messages_sent (count_exchanges B d M c)
  = (messages_sent c + Z.of_nat M) mod SIZE_MOD /\
  messages_received (count_exchanges B d M c)
  = (messages_received c + Z.of_nat M) mod SIZE_MOD.
Proof.
  induction M as [|M IH]; intros c H1 H2 H3 H4.
  - simpl. rewrite !Z.add_0_r. now repeat split.
  - cbn [count_exchanges]. rewrite !Nat2Z.inj_succ. unfold Z.succ.
    destruct (IH (count_exchange B d c)) as (I1 & I2 & I3 & I4);
      try (simpl; unfold ull_add; apply Z.mod_mod; discriminate).
    rewrite I1, I2, I3, I4. simpl. unfold ull_add.
    rewrite !Zplus_mod_idemp_l.
    repeat split; f_equal; lia.
Qed.

(** *** The summary of [main] *)

Import PrimFloat.

(** The join loop adds a counter up, modulo 2^64; [g] reads the sum and
    [f] the counter of one context. *)
Lemma join_counter (f : A1Main.ClientContext -> Z) (g : A1Main.totals -> Z) :
  (forall t c,
     option_map g (A1Main.join_one t (A1Main.Context c))
     = Some (ull_add (g t) (f c))) ->
  forall contexts t t',
    g t mod SIZE_MOD = g t ->
    A1Main.join_from t contexts = Some t' ->
    g t' = (g t + sum_Z f contexts) mod SIZE_MOD.
Proof.
  intros Hg contexts.
  induction contexts as [|[| |c] rest IH]; intros t t' Ht;
    cbn [A1Main.join_from A1Main.join_one sum_Z].
  - intros [= <-]. now rewrite Z.add_0_r.
  - discriminate.
  - apply IH. exact Ht.
  - intros Hrest. specialize (Hg t c). cbn [A1Main.join_one option_map] in Hg.
    injection Hg as Hg.
    rewrite (IH _ _ ltac:(rewrite Hg; apply Z.mod_mod; discriminate) Hrest).
    rewrite Hg. unfold ull_add. rewrite Zplus_mod_idemp_l. f_equal. lia.
Qed.

(** The latencies are added in the order of the array. *)
Lemma join_latency contexts : forall t t',
  A1Main.join_from t contexts = Some t' ->
  A1Main.total_latency t' = sum_latency (A1Main.total_latency t) contexts.
Proof.
  induction contexts as [|[| |c] rest IH]; intros t t';
    cbn [A1Main.join_from A1Main.join_one sum_latency].
  - now intros [= <-].
  - discriminate.
  - apply IH.
  - intros Hrest. now rewrite (IH _ _ Hrest).
Qed.

Lemma join_active contexts : forall t t',
  A1Main.join_from t contexts = Some t' ->
  A1Main.active_threads t'
  = A1Main.active_threads t + threads_joined contexts.
Proof.
  unfold threads_joined.
  induction contexts as [|[| |c] rest IH]; intros t t';
    cbn [A1Main.join_from A1Main.join_one sum_Z].
  - intros [= <-]. lia.
  - discriminate.
  - apply IH.
  - intros Hrest. rewrite (IH _ _ Hrest). cbn [A1Main.active_threads]. lia.
Qed.

(** The join loop is determined exactly when every slot was assigned. *)
Lemma join_defined contexts :
  Forall assigned contexts ->
  forall t, exists t', A1Main.join_from t contexts = Some t'.
Proof.
  induction 1 as [|slot rest Hslot _ IH]; intros t;
    cbn [A1Main.join_from].
  - now exists t.
  - destruct slot as [| |c]; cbn [A1Main.join_one].
    + now contradiction Hslot.
    + apply IH.
    + apply IH.
Qed.

Lemma join_some_assigned contexts : forall t t',
  A1Main.join_from t contexts = Some t' -> Forall assigned contexts.
Proof.
  induction contexts as [|slot rest IH]; intros t t';
    cbn [A1Main.join_from].
  - constructor.
  - destruct slot as [| |c]; cbn [A1Main.join_one].
    + discriminate.
    + intros H. constructor; [discriminate|exact (IH _ _ H)].
    + intros H. constructor; [discriminate|exact (IH _ _ H)].
Qed.

Lemma join_all_sums contexts t :
  A1Main.join_all contexts = Some t ->
  A1Main.total_bytes_sent t
  = sum_Z A1Main.bytes_sent contexts mod SIZE_MOD /\
  A1Main.total_bytes_recv t
  = sum_Z A1Main.bytes_received contexts mod SIZE_MOD /\
  A1Main.total_messages t
  = sum_Z A1Main.messages_sent contexts mod SIZE_MOD /\
  A1Main.total_latency t = sum_latency 0%float contexts /\
  A1Main.active_threads t = threads_joined contexts.
Proof.
  unfold A1Main.join_all. intros H.
  split; [|split; [|split; [|split]]].
  - exact (join_counter A1Main.bytes_sent A1Main.total_bytes_sent
             ltac:(reflexivity) contexts A1Main.no_totals t eq_refl H).
  - exact (join_counter A1Main.bytes_received A1Main.total_bytes_recv
             ltac:(reflexivity) contexts A1Main.no_totals t eq_refl H).
  - exact (join_counter A1Main.messages_sent A1Main.total_messages
             ltac:(reflexivity) contexts A1Main.no_totals t eq_refl H).
  - exact (join_latency _ _ _ H).
  - exact (join_active _ _ _ H).
Qed.

Lemma threads_joined_nonneg contexts : 0 <= threads_joined contexts.
Proof.
  unfold threads_joined.
  induction contexts as [|[| |c] rest IH]; cbn [sum_Z]; lia.
Qed.

(** No thread ran exactly when every slot holds [NULL], provided every slot
    was assigned. *)
Lemma no_thread_joined contexts :
  Forall (eq A1Main.Null) contexts
  <-> Forall assigned contexts /\ threads_joined contexts = 0.
Proof.
  unfold threads_joined.
  induction contexts as [|slot rest IH]; cbn [sum_Z].
  - split; [intros _; split; [constructor|reflexivity]|constructor].
  - pose proof (threads_joined_nonneg rest) as Hn.
    unfold threads_joined in Hn. split.
    + intros H. inversion H as [|? ? <- Hrest]. subst.
      apply IH in Hrest. destruct Hrest as [Ha H0].
      split; [constructor; [discriminate|exact Ha]|exact H0].
    + intros [Ha H0]. inversion Ha as [|? ? Hslot Hrest]. subst.
      destruct slot as [| |c].
      * now contradiction Hslot.
      * constructor; [reflexivity|]. apply IH. now split.
      * lia.
Qed.

(** C8, as stated, fails: a client completes one exchange of 8 bytes in 10
    microseconds, sends a second message and finds the connection closed when
    it waits for the echo.  One round trip is complete and the latency field
    holds 0.0 + (110.0 - 100.0), but the summary divides it by the 2 messages
    sent: the average printed is 5.0, not 10.0. *)
Lemma average_latency_divides_by_messages_sent :
  exists s thr avg,
    run (client_thread_start (fun _ => true) true true (fun _ => 0)
           (new_context 8 1))
      [TimeSec 0; Running 1; TimeSec 0;
       TimeUs 100; Sent 8 EOTHER; Running 1; Received 8 EOTHER; TimeUs 110;
       Running 1; TimeSec 0;
       TimeUs 120; Sent 8 EOTHER; Running 1; Received 0 EOTHER] = Some s /\
    pc s = Exited /\
    messages_sent (ctx s) = 2 /\
    messages_received (ctx s) = 1 /\
    A1Main.summary
      [A1Main.Context (A1Main.joined (ctx s) (0 + (110 - 100))%float)] 1
    = Some (A1Main.Figures thr avg) /\
    avg = 5%float /\
    ((0 + (110 - 100)) / A1Main.double_of_Z (messages_received (ctx s)))%float
    = 10%float /\
    avg <> 10%float.
Proof.
  eexists _, _, _. split; [vm_compute; reflexivity|].
  split; [reflexivity|]. split; [reflexivity|]. split; [reflexivity|].
  split; [vm_compute; reflexivity|]. split; [reflexivity|].
  split; [vm_compute; reflexivity|].
  intros H. discriminate H.
Qed.

(** C8, amended: when every slot of the context array was assigned, at
    least one session was joined and the total of messages sent is not 0, the
    summary prints its two figures, computed on doubles: throughput_Gbps is
    (double)(total bytes sent + total bytes received) * 8.0
    / ((double) duration * 1e9), the totals being the 64-bit sums over the
    joined sessions and their sum a 64-bit sum too, and the average latency is
    the total accumulated latency, the sessions' latencies added in the order
    of the array, divided by (double)(total number of messages sent), which is
    the number of completed round trips only when every message sent was
    answered in full.  For M messages sent and answered, of S bytes each,
    these are (double)(M * S * 2) * 8.0 / ((double) duration * 1e9) and
    total_latency / (double) M, every operation rounded to the nearest
    double. *)
Theorem summary_formulas contexts dur :
  Forall assigned contexts ->
  0 < threads_joined contexts ->
  0 < sum_Z A1Main.messages_sent contexts mod SIZE_MOD ->
  exists thr avg,
    A1Main.summary contexts dur = Some (A1Main.Figures thr avg) /\
    thr = (A1Main.double_of_Z
             ((sum_Z A1Main.bytes_sent contexts mod SIZE_MOD
               + sum_Z A1Main.bytes_received contexts mod SIZE_MOD)
              mod SIZE_MOD) * 8
           / (A1Main.double_of_Z dur * 1000000000))%float /\
    avg = (sum_latency 0 contexts
           / A1Main.double_of_Z
               (sum_Z A1Main.messages_sent contexts mod SIZE_MOD))%float /\
    (forall M S,
       0 < M < SIZE_MOD -> 0 <= S -> 2 * (M * S) < SIZE_MOD ->
       sum_Z A1Main.bytes_sent contexts = M * S ->
       sum_Z A1Main.bytes_received contexts = M * S ->
       sum_Z A1Main.messages_sent contexts = M ->
       thr = (A1Main.double_of_Z (M * S * 2) * 8
              / (A1Main.double_of_Z dur * 1000000000))%float /\
       avg = (sum_latency 0 contexts / A1Main.double_of_Z M)%float).
Proof.
  intros Hall Hthreads Hmsgs.
  destruct (join_defined contexts Hall A1Main.no_totals) as [t Ht].
  fold (A1Main.join_all contexts) in Ht.
  destruct (join_all_sums contexts t Ht) as (Hs & Hr & Hm & Hl & Ha).
  unfold A1Main.summary. rewrite Ht, Ha, Hm.
  destruct (Z.ltb_spec 0 (threads_joined contexts)) as [_|]; [|lia].
  destruct (Z.ltb_spec 0 (sum_Z A1Main.messages_sent contexts mod SIZE_MOD))
    as [_|]; [|lia].
  cbv [andb]. eexists _, _. split; [reflexivity|].
  unfold A1Main.throughput_gbps, A1Main.avg_latency_us, ull_add.
  rewrite Hs, Hr, Hm, Hl.
  split; [reflexivity|]. split; [reflexivity|].
  intros M S HM HS HMS -> -> ->.
  assert (HMS0 : 0 <= M * S) by nia.
  change SIZE_MOD with 18446744073709551616 in *.
  rewrite (Z.mod_small (M * S)) by lia.
  rewrite (Z.mod_small M) by lia.
  rewrite (Z.mod_small (M * S + M * S)) by lia.
  replace (M * S + M * S) with (M * S * 2) by lia.
  split; reflexivity.
Qed.

Lemma summary_formulas_witness :
  exists thr avg,
    A1Main.summary
      [A1Main.Null;
       A1Main.Context
         {| A1Main.bytes_sent := 102400; A1Main.bytes_received := 102400;
            A1Main.messages_sent := 100; A1Main.messages_received := 100;
            A1Main.total_latency_us := 5000%float |}] 1
    = Some (A1Main.Figures thr avg) /\
    thr = (A1Main.double_of_Z
             ((102400 mod SIZE_MOD + 102400 mod SIZE_MOD) mod SIZE_MOD) * 8
           / (A1Main.double_of_Z 1 * 1000000000))%float /\
    avg = ((0 + 5000) / A1Main.double_of_Z (100 mod SIZE_MOD))%float.
Proof.
  destruct (summary_formulas
              [A1Main.Null;
               A1Main.Context
                 {| A1Main.bytes_sent := 102400;
                    A1Main.bytes_received := 102400;
                    A1Main.messages_sent := 100;
                    A1Main.messages_received := 100;
                    A1Main.total_latency_us := 5000%float |}] 1)
    as (thr & avg & Hsum & Hthr & Havg & _).
  - repeat constructor; discriminate.
  - reflexivity.
  - reflexivity.
  - exists thr, avg. split; [exact Hsum|]. split; [exact Hthr|].
    exact Havg.
Defined.

(** The literal case of the design document: 100 exchanges of 1024 bytes in
    a run of 1 second.  The throughput is the double 7555786372591432 * 2^-62,
    the one nearest to 0.0016384, which is not a double. *)
Example summary_literal_case :
  forall latency,
    exists thr,
      A1Main.summary
        [A1Main.Context
           {| A1Main.bytes_sent := 100 * 1024;
              A1Main.bytes_received := 100 * 1024;
              A1Main.messages_sent := 100; A1Main.messages_received := 100;
              A1Main.total_latency_us := latency |}] 1
      = Some (A1Main.Figures thr ((0 + latency) / 100)%float) /\
      FloatOps.Prim2SF thr
      = SpecFloat.S754_finite false 7555786372591432 (-62) /\
      7555786372591432 * 10000000 <> 16384 * 2 ^ 62.
Proof.
  intros latency. eexists. split; [vm_compute; reflexivity|].
  split; [vm_compute; reflexivity|]. discriminate.
Qed.

(** X13: one session that completes [M] exchanges of [B] bytes, whatever
    double its latency field holds at the end: the summary prints the
    throughput (double)(M * B * 2) * 8.0 / ((double) duration * 1e9) and the
    average latency (0.0 + latency) / (double) M. *)
Lemma summary_of_complete_exchanges size dur B d (M : nat) latency :
  (0 < M)%nat -> 0 < B -> 2 * (Z.of_nat M * B) < SIZE_MOD ->
  A1Main.summary
    [A1Main.Context
       (A1Main.joined (count_exchanges B d M (new_context size dur)) latency)]
    dur
  = Some (A1Main.Figures
            (A1Main.double_of_Z (Z.of_nat M * B * 2) * 8
             / (A1Main.double_of_Z dur * 1000000000))%float
            ((0 + latency) / A1Main.double_of_Z (Z.of_nat M))%float).
Proof.
  intros HM HB Hsmall.
  destruct (count_exchanges_counters B d M (new_context size dur)
              eq_refl eq_refl eq_refl eq_refl)
    as (Hs & Hr & Hm & _).
  set (c := count_exchanges B d M (new_context size dur)) in *.
  cbn [new_context bytes_sent bytes_received messages_sent] in Hs, Hr, Hm.
  rewrite Z.add_0_l in Hs, Hr, Hm.
  change SIZE_MOD with 18446744073709551616 in *.
  assert (HMB : 0 <= Z.of_nat M * B) by nia.
  assert (HMM : Z.of_nat M <= Z.of_nat M * B) by nia.
  rewrite Z.mod_small in Hs, Hr, Hm by lia.
  unfold A1Main.summary, A1Main.join_all.
  cbn [A1Main.join_from A1Main.join_one A1Main.joined A1Main.no_totals
       A1Main.bytes_sent A1Main.bytes_received A1Main.messages_sent
       A1Main.total_latency_us A1Main.total_bytes_sent
       A1Main.total_bytes_recv A1Main.total_messages A1Main.total_latency
       A1Main.active_threads].
  rewrite Hs, Hr, Hm.
  unfold A1Main.throughput_gbps, A1Main.avg_latency_us, ull_add.
  cbn [A1Main.total_bytes_sent A1Main.total_bytes_recv A1Main.total_messages
       A1Main.total_latency].
  rewrite !Z.add_0_l.
  change SIZE_MOD with 18446744073709551616.
  rewrite (Z.mod_small (Z.of_nat M * B)) by lia.
  rewrite (Z.mod_small (Z.of_nat M)) by lia.
  rewrite (Z.mod_small (Z.of_nat M * B + Z.of_nat M * B)) by lia.
  replace (Z.of_nat M * B + Z.of_nat M * B)
    with (Z.of_nat M * B * 2) by lia.
  destruct (Z.ltb_spec 0 (Z.of_nat M)) as [_|]; [|lia].
  reflexivity.
Qed.

End SummaryFacts.

(** ** The zero-copy session *)

Module A3Facts.
Import Common Env Notions.
Import A3Server.

Lemma completion_results :
  handle_zerocopy_completion
    {| rm_ret := -1; rm_errno := EAGAIN; rm_cmsg := None |} = 0 /\
  handle_zerocopy_completion
    {| rm_ret := -1; rm_errno := EOTHER; rm_cmsg := None |} = -1 /\
  handle_zerocopy_completion
    {| rm_ret := 0; rm_errno := EOTHER; rm_cmsg := Some (SOL_IP, IP_RECVERR) |}
  = 1.
Proof. repeat split. Qed.

Lemma completion_range r :
  handle_zerocopy_completion r = -1 \/
  handle_zerocopy_completion r = 0 \/
  handle_zerocopy_completion r = 1.
Proof.
  unfold handle_zerocopy_completion.
  destruct (rm_ret r <? 0).
  - destruct (_ || _); auto.
  - destruct (rm_cmsg r) as [[level type]|]; auto.
    destruct (_ && _); auto.
Qed.

Ltac session_cases :=
  repeat match goal with
         | |- context [if ?b then _ else _] =>
             let E := fresh "E" in destruct b eqn:E
         end.

Ltac loop_test :=
  unfold enter_poll_top, enter_poll_wait, enter_drain, cleanup, goto,
    with_ctx, with_pending, max_pending in *; simpl in *.

(** Every step keeps the count of pending completions consistent with the
    call site: it is never negative. *)
Lemma step_pending_consistent s a s' :
  pending_consistent s -> step s a = Some s' -> pending_consistent s'.
Proof.
  unfold pending_consistent, step. intros (H0 & Hpos & Hwait).
  destruct (pc s) eqn:Hpc, a; try discriminate;
    loop_test; session_cases; intros [= <-]; simpl;
    repeat match goal with
           | H : (_ <? _) = true |- _ => apply Z.ltb_lt in H
           | H : (_ <? _) = false |- _ => apply Z.ltb_ge in H
           | H : (_ <=? _) = true |- _ => apply Z.leb_le in H
           | H : (_ <=? _) = false |- _ => apply Z.leb_gt in H
           end;
    try specialize (Hpos ltac:(auto));
    try specialize (Hwait ltac:(auto));
    (split; [lia|split; [intros [?|?]; try discriminate; lia
                        |intros ?; try discriminate; lia]]).
Qed.

Lemma start_pending_consistent msg_ok recv_ok c :
  pending_consistent (handle_client_start msg_ok recv_ok c).
Proof.
  unfold handle_client_start, pending_consistent.
  destruct (allocate_message msg_ok (msg_size c)); [destruct recv_ok|];
    simpl; (split; [lia|split; [intros [?|?]|intros ?]; discriminate]).
Qed.

Lemma run_pending_consistent answers : forall s s',
  pending_consistent s -> run s answers = Some s' -> pending_consistent s'.
Proof.
  induction answers as [|a rest IH]; intros s s' Hs; simpl.
  - now intros [= <-].
  - destruct (step s a) as [s1|] eqn:E; [|discriminate].
    apply IH. exact (step_pending_consistent _ _ _ Hs E).
Qed.

(** The lower bound of C2 holds throughout every session. *)
Lemma pending_never_negative msg_ok recv_ok c answers s :
  run (handle_client_start msg_ok recv_ok c) answers = Some s ->
  0 <= pending_completions s.
Proof.
  intros H.
  apply (run_pending_consistent _ _ _ (start_pending_consistent _ _ _)) in H.
  apply H.
Qed.

(** A step adds at most 1 to the count: only a [sendmsg] that is accepted
    increments it. *)
Lemma step_pending_grows_by_one s a s' :
  step s a = Some s' -> pending_completions s' <= pending_completions s + 1.
Proof.
  unfold step.
  destruct (pc s) eqn:Hpc, a; try discriminate;
    loop_test; session_cases; intros [= <-]; simpl; lia.
Qed.

Lemma start_pending_zero msg_ok recv_ok c :
  pending_completions (handle_client_start msg_ok recv_ok c) = 0.
Proof.
  unfold handle_client_start.
  destruct (allocate_message msg_ok (msg_size c)); [destruct recv_ok|];
    reflexivity.
Qed.

(** So the count never grows faster than the run. *)
Lemma run_pending_at_most_length answers : forall s s',
  run s answers = Some s' ->
  pending_completions s'
  <= pending_completions s + Z.of_nat (length answers).
Proof.
  induction answers as [|a rest IH]; intros s s'.
  - simpl. intros [= <-]. lia.
  - cbn [run]. destruct (step s a) as [s1|] eqn:E; [|discriminate].
    intros Hrun. apply IH in Hrun. apply step_pending_grows_by_one in E.
    rewrite length_cons, Nat2Z.inj_succ. lia.
Qed.

(** As long as no read of the error queue fails, a step keeps the count
    within the cap, and a [sendmsg] is only reached below it. *)
Lemma step_pending_bounded s a s' :
  match a with
  | ErrQueue r => 0 <= handle_zerocopy_completion r
  | _ => True
  end ->
  pending_completions s <= max_pending /\
  (pc s = AtSendmsg -> pending_completions s < max_pending) ->
  step s a = Some s' ->
  pending_completions s' <= max_pending /\
  (pc s' = AtSendmsg -> pending_completions s' < max_pending).
Proof.
  unfold step. intros Ha (Hle & Hsend).
  destruct (pc s) eqn:Hpc, a; try discriminate;
    loop_test; session_cases; intros [= <-]; simpl;
    repeat match goal with
           | H : (_ <? _) = true |- _ => apply Z.ltb_lt in H
           | H : (_ <? _) = false |- _ => apply Z.ltb_ge in H
           | H : (_ <=? _) = true |- _ => apply Z.leb_le in H
           | H : (_ <=? _) = false |- _ => apply Z.leb_gt in H
           end;
    try specialize (Hsend ltac:(auto));
    (split; [lia|intros ?; try discriminate; lia]).
Qed.

(** X17: on every run in which no read of the error queue fails, the count
    of pending completions stays between 0 and [max_pending]. *)
Lemma pending_bounded_without_queue_error msg_ok recv_ok c answers s :
  no_queue_error answers ->
  run (handle_client_start msg_ok recv_ok c) answers = Some s ->
  0 <= pending_completions s <= max_pending.
Proof.
  intros Hq Hrun. split; [exact (pending_never_negative _ _ _ _ _ Hrun)|].
  assert (Hstart :
    pending_completions (handle_client_start msg_ok recv_ok c) <= max_pending
    /\ (pc (handle_client_start msg_ok recv_ok c) = AtSendmsg ->
        pending_completions (handle_client_start msg_ok recv_ok c)
        < max_pending)).
  { unfold handle_client_start.
    destruct (allocate_message msg_ok (msg_size c)); [destruct recv_ok|];
      simpl; (split; [discriminate|intros ?; discriminate]). }
  revert Hrun Hstart. generalize (handle_client_start msg_ok recv_ok c).
  induction Hq as [|a rest Ha Hrest IH]; intros s0; simpl.
  - intros [= <-] H. apply H.
  - destruct (step s0 a) as [s1|] eqn:E; [|discriminate].
    intros Hrun Hs0. apply (IH s1 Hrun).
    exact (step_pending_bounded _ _ _ Ha Hs0 E).
Qed.

(** C2: the code breaks the upper bound.  Eight echoes go out while no
    completion arrives, so 8 are pending; on the ninth request the wait before
    the send reads the error queue, the read fails, the loop is left, and the
    ninth [sendmsg] makes the count 9, above [max_pending] = 8. *)
Theorem pending_exceeds_max_pending_after_queue_error :
  exists s,
    run (handle_client_start (fun _ => true) true (new_context 8 0))
      ([Running 1; Received 8 EOTHER; Sent 8 EOTHER]
       ++ concat (repeat [Running 1; no_notification;
                          Received 8 EOTHER; Sent 8 EOTHER] 7)
       ++ [Running 1; no_notification; Received 8 EOTHER;
           queue_error; Sent 8 EOTHER]) = Some s /\
    pc s = AtRunning /\
    messages_sent (ctx s) = 9 /\
    pending_completions s = 9 /\
    max_pending < pending_completions s.
Proof.
  eexists. split; [vm_compute; reflexivity|]. repeat split.
Qed.

(** C3: the code frees the message with a completion pending.  One echo is
    sent, the running flag drops, the teardown loop reads the error queue
    once, finds nothing yet, and leaves; [cleanup] frees the message while
    [pending_completions] is 1. *)
Theorem teardown_frees_message_with_completion_pending :
  exists s,
    run (handle_client_start (fun _ => true) true (new_context 8 0))
      [Running 1; Received 8 EOTHER; Sent 8 EOTHER;
       Running 0; no_notification] = Some s /\
    pc s = Exited /\
    msg_freed s = true /\
    pending_completions s = 1.
Proof.
  eexists. split; [vm_compute; reflexivity|]. repeat split.
Qed.

(** C4: the code does not retry after ENOBUFS.  The second request is
    received, its [sendmsg] is rejected with ENOBUFS, the error queue is read
    once (a completion is there, and its result is dropped), and the session
    is back at [recv]: two messages received, one sent, and still one
    completion counted as pending. *)
Theorem enobufs_drops_the_response :
  exists s,
    run (handle_client_start (fun _ => true) true (new_context 8 0))
      [Running 1; Received 8 EOTHER; Sent 8 EOTHER;
       Running 1; no_notification; Received 8 EOTHER; Sent (-1) ENOBUFS;
       completion_ready; Running 1; no_notification] = Some s /\
    next_call s = Recv 8 /\
    messages_received (ctx s) = 2 /\
    messages_sent (ctx s) = 1 /\
    pending_completions s = 1.
Proof.
  eexists. split; [vm_compute; reflexivity|]. repeat split.
Qed.

(** X18: a [sendmsg] rejected with ENOBUFS does not end the session.
    After it the error queue is read once, whatever it holds, and the
    session is at the head of its loop with counters and pending count as
    before the rejected [sendmsg]. *)
Lemma enobufs_returns_to_loop_head s n r :
  pc s = AtSendmsg -> n < 0 ->
  exists s1 s2,
    step s (Sent n ENOBUFS) = Some s1 /\
    step s1 (ErrQueue r) = Some s2 /\
    pc s2 = AtRunning /\
    ctx s2 = ctx s /\
    pending_completions s2 = pending_completions s.
Proof.
  intros Hpc Hn. unfold step. rewrite Hpc.
  destruct (Z.leb_spec n 0) as [_|]; [|lia].
  destruct (Z.ltb_spec n 0) as [_|]; [|lia].
  simpl. eexists _, _. repeat split.
Qed.

(** The teardown loop leaves at the first read of the error queue that
    brings no completion, and [cleanup] follows with the count still
    positive. *)
Lemma teardown_leaves_on_first_empty_read s r :
  pending_consistent s -> pc s = AtPollDrain ->
  handle_zerocopy_completion r <= 0 ->
  exists s',
    step s (ErrQueue r) = Some s' /\
    pc s' = Exited /\
    0 < pending_completions s' /\
    msg_freed s' = match msg s with Some _ => true | None => false end.
Proof.
  intros (_ & Hpos & _) Hpc Hr. unfold step. rewrite Hpc.
  destruct (Z.ltb_spec 0 (handle_zerocopy_completion r)); [lia|].
  eexists. repeat split. simpl. apply Hpos. now right.
Qed.

End A3Facts.

(** ** Admission control *)

Module AdmissionFacts.
Import Common Notions.
Import Admission.

Lemma length_remove_first id : forall l rest,
  remove_first id l = Some rest ->
  In id l /\ length l = S (length rest).
Proof.
  induction l as [|x l IH]; intros rest; simpl; [discriminate|].
  destruct (Z.eqb_spec x id) as [->|Hne].
  - intros [= <-]. split; [now left|reflexivity].
  - destruct (remove_first id l) as [rest'|]; [|discriminate].
    intros [= <-]. destruct (IH rest' eq_refl) as [Hin Hlen].
    split; [now right|simpl; now rewrite Hlen].
Qed.

Lemma step_admission_consistent max_threads s e s' :
  admission_consistent max_threads s ->
  step max_threads s e = Some s' ->
  admission_consistent max_threads s'.
Proof.
  unfold admission_consistent, step. intros (Hcount & Hmax).
  destruct e, (main_pc s) eqn:Hpc; try discriminate;
    unfold enter_wait, main_goto, locked_add, close_socket;
    try (destruct (remove_first id (sessions s)) as [rest|] eqn:Hrm;
         [apply length_remove_first in Hrm; destruct Hrm as [_ Hlen]
         |discriminate]);
    repeat match goal with
           | |- context [if ?b then _ else _] =>
               let E := fresh "E" in destruct b eqn:E
           end;
    intros [= <-]; simpl in *;
    repeat match goal with
           | H : (_ <? _) = true |- _ => apply Z.ltb_lt in H
           | H : (_ <? _) = false |- _ => apply Z.ltb_ge in H
           | H : (_ <=? _) = true |- _ => apply Z.leb_le in H
           | H : (_ <=? _) = false |- _ => apply Z.leb_gt in H
           end;
    lia.
Qed.

Lemma run_admission_consistent max_threads events : forall s s',
  admission_consistent max_threads s ->
  run max_threads s events = Some s' ->
  admission_consistent max_threads s'.
Proof.
  induction events as [|e rest IH]; intros s s' Hs; simpl.
  - now intros [= <-].
  - destruct (step max_threads s e) as [s1|] eqn:E; [|discriminate].
    apply IH. exact (step_admission_consistent _ _ _ _ Hs E).
Qed.

Lemma remove_first_in id : forall l,
  In id l -> exists rest, remove_first id l = Some rest.
Proof.
  induction l as [|x l IH]; simpl; [intros []|].
  intros Hin. destruct (Z.eqb_spec x id) as [->|Hne].
  - now exists l.
  - destruct Hin as [->|Hin]; [contradiction|].
    destruct (IH Hin) as [rest ->]. now eexists.
Qed.

(** C7, as stated, fails for a negative maximum, which [-t] accepts: the
    count starts at 0, above the maximum, and stays there while every
    connection is turned away. *)
Lemma count_exceeds_negative_maximum :
  exists s,
    run (-1) server_start [Running 1; Accepted 4] = Some s /\
    num_active_clients s = 0 /\
    sessions s = [] /\
    closed s = [4] /\
    ~ num_active_clients s <= -1.
Proof.
  eexists. split; [vm_compute; reflexivity|]. repeat split.
  simpl. lia.
Qed.

(** C7, amended: in every state the server reaches, the active-session
    count is at least 0 and at most the configured maximum, or 0 when that
    maximum is negative, and it covers every running session.  An accepted
    connection that finds the count at or above the maximum is closed at once,
    no session is started and the count is left alone; otherwise the count is
    incremented first and the session is started in a later step with the count
    unchanged, or the count is decremented again and the connection closed
    when the context or the thread cannot be had; every running session can
    exit, and its exit decrements the count. *)
Theorem active_sessions_never_exceed_maximum max_threads events s :
  run max_threads server_start events = Some s ->
  0 <= num_active_clients s <= Z.max 0 max_threads /\
  Z.of_nat (length (sessions s)) <= num_active_clients s /\
  (forall sock,
     0 <= sock -> main_pc s = AtAccept ->
     max_threads <= num_active_clients s ->
     exists s',
       step max_threads s (Accepted sock) = Some s' /\
       num_active_clients s' = num_active_clients s /\
       sessions s' = sessions s /\
       closed s' = sock :: closed s /\
       main_pc s' = AtRunning) /\
  (forall sock,
     0 <= sock -> main_pc s = AtAccept ->
     num_active_clients s < max_threads ->
     exists s',
       step max_threads s (Accepted sock) = Some s' /\
       num_active_clients s' = num_active_clients s + 1 /\
       sessions s' = sessions s /\
       closed s' = closed s /\
       main_pc s' = AtMallocCtx sock) /\
  (forall sock,
     main_pc s = AtMallocCtx sock ->
     exists s',
       step max_threads s (MallocCtx false) = Some s' /\
       num_active_clients s' = num_active_clients s - 1 /\
       sessions s' = sessions s /\
       closed s' = sock :: closed s /\
       main_pc s' = AtRunning) /\
  (forall sock,
     main_pc s = AtPthreadCreate sock ->
     exists s',
       step max_threads s (PthreadCreate true) = Some s' /\
       num_active_clients s' = num_active_clients s /\
       sessions s' = (client_id s - 1) :: sessions s) /\
  (forall sock,
     main_pc s = AtPthreadCreate sock ->
     exists s',
       step max_threads s (PthreadCreate false) = Some s' /\
       num_active_clients s' = num_active_clients s - 1 /\
       sessions s' = sessions s /\
       closed s' = sock :: closed s /\
       main_pc s' = AtRunning) /\
  (forall id,
     In id (sessions s) ->
     exists s',
       step max_threads s (SessionExit id) = Some s' /\
       num_active_clients s' = num_active_clients s - 1 /\
       remove_first id (sessions s) = Some (sessions s') /\
       length (sessions s) = S (length (sessions s')) /\
       main_pc s' = main_pc s /\
       closed s' = closed s) /\
  (forall id s',
     step max_threads s (SessionExit id) = Some s' ->
     In id (sessions s) /\
     num_active_clients s' = num_active_clients s - 1 /\
     length (sessions s) = S (length (sessions s'))).
Proof.
  intros Hrun.
  assert (Hstart : admission_consistent max_threads server_start).
  { split; [reflexivity|simpl; lia]. }
  destruct (run_admission_consistent _ _ _ _ Hstart Hrun) as [Hcount Hle].
  assert (Hs : 0 <= starting (main_pc s)) by (destruct (main_pc s); simpl; lia).
  split; [lia|]. split; [lia|].
  split; [|split; [|split; [|split; [|split; [|split]]]]].
  - intros sock Hsock Hpc Hfull. unfold step. rewrite Hpc.
    destruct (Z.ltb_spec sock 0); [lia|].
    destruct (Z.leb_spec max_threads (num_active_clients s)); [|lia].
    eexists. repeat split.
  - intros sock Hsock Hpc Hroom. unfold step. rewrite Hpc.
    destruct (Z.ltb_spec sock 0); [lia|].
    destruct (Z.leb_spec max_threads (num_active_clients s)); [lia|].
    eexists. repeat split.
  - intros sock Hpc. unfold step. rewrite Hpc.
    eexists. split; [reflexivity|]. simpl. repeat split.
  - intros sock Hpc. unfold step. rewrite Hpc.
    eexists. repeat split.
  - intros sock Hpc. unfold step. rewrite Hpc.
    eexists. split; [reflexivity|]. simpl. repeat split.
  - intros id Hin. unfold step.
    destruct (remove_first_in id _ Hin) as [rest Hrm]. rewrite Hrm.
    destruct (length_remove_first _ _ _ Hrm) as [_ Hlen].
    exists {| main_pc := main_pc s;
              num_active_clients := num_active_clients s - 1;
              client_id := client_id s;
              sessions := rest;
              closed := closed s |}.
    split; [now destruct (main_pc s)|]. simpl. repeat split. exact Hlen.
  - intros id s'. unfold step.
    destruct (remove_first id (sessions s)) as [rest|] eqn:Hrm.
    + destruct (length_remove_first _ _ _ Hrm) as [Hin Hlen].
      destruct (main_pc s); intros [= <-]; simpl; auto.
    + destruct (main_pc s); discriminate.
Qed.

Lemma active_sessions_never_exceed_maximum_witness :
  exists s,
    run 2 server_start
      [Running 1; Accepted 4; MallocCtx true; PthreadCreate true;
       Running 1; Accepted 5; MallocCtx true; PthreadCreate true;
       Running 1] = Some s /\
    num_active_clients s = 2 /\
    sessions s = [1; 0] /\
    0 <= num_active_clients s <= Z.max 0 2 /\
    (forall sock,
       0 <= sock -> main_pc s = AtAccept -> 2 <= num_active_clients s ->
       exists s',
         step 2 s (Accepted sock) = Some s' /\
         num_active_clients s' = num_active_clients s /\
         sessions s' = sessions s /\
         closed s' = sock :: closed s /\
         main_pc s' = AtRunning) /\
    (forall id,
       In id (sessions s) ->
       exists s',
         step 2 s (SessionExit id) = Some s' /\
         num_active_clients s' = num_active_clients s - 1 /\
         remove_first id (sessions s) = Some (sessions s') /\
         length (sessions s) = S (length (sessions s')) /\
         main_pc s' = main_pc s /\
         closed s' = closed s).
Proof.
  eexists. split; [vm_compute; reflexivity|]. split; [reflexivity|].
  split; [reflexivity|].
  destruct (active_sessions_never_exceed_maximum 2
              [Running 1; Accepted 4; MallocCtx true; PthreadCreate true;
               Running 1; Accepted 5; MallocCtx true; PthreadCreate true;
               Running 1]
              _ eq_refl)
    as (Hrange & _ & Hreject & _ & _ & _ & _ & Hexit & _).
  split; [exact Hrange|]. split; [exact Hreject|exact Hexit].
Defined.

(** With a maximum of 2, five connections in a row start two sessions and
    are turned away three times. *)
Example five_connections_two_admitted :
  exists s,
    run 2 server_start
      [Running 1; Accepted 4; MallocCtx true; PthreadCreate true;
       Running 1; Accepted 5; MallocCtx true; PthreadCreate true;
       Running 1; Accepted 6; Running 1; Accepted 7;
       Running 1; Accepted 8] = Some s /\
    num_active_clients s = 2 /\
    sessions s = [1; 0] /\
    closed s = [8; 7; 6].
Proof. eexists. split; [vm_compute; reflexivity|]. repeat split. Qed.

End AdmissionFacts.

(** ** Allocation and release of a message on the heap *)

Module HeapFacts.
Import Notions.
Import Heap.

Lemma remove_block_absent p : forall l, ~ In p l -> remove_block p l = l.
Proof.
  induction l as [|x l IH]; intros Hp; simpl; [reflexivity|].
  destruct (Nat.eqb_spec x p) as [->|_].
  - elim Hp. now left.
  - f_equal. apply IH. intros H. apply Hp. now right.
Qed.

Lemma remove_block_head p l : ~ In p l -> remove_block p (p :: l) = l.
Proof.
  intros Hp. simpl. rewrite Nat.eqb_refl. now apply remove_block_absent.
Qed.

Lemma remove_block_middle p l2 : forall l1,
  ~ In p l1 -> ~ In p l2 -> remove_block p (l1 ++ p :: l2) = l1 ++ l2.
Proof.
  induction l1 as [|x l1 IH]; intros H1 H2.
  - now apply remove_block_head.
  - simpl. destruct (Nat.eqb_spec x p) as [->|_].
    + elim H1. now left.
    + f_equal. apply IH; [|exact H2]. intros H. apply H1. now right.
Qed.

(** Freeing the fields allocated so far, oldest first, takes exactly their
    blocks off the live list. *)
Lemma free_fields_allocated ps : forall tail n,
  NoDup (rev ps ++ tail) ->
  free_fields (map Some ps) {| live := rev ps ++ tail; next := n |}
  = {| live := tail; next := n |}.
Proof.
  induction ps as [|p ps IH]; intros tail n Hnd; [reflexivity|].
  simpl in *. rewrite <- app_assoc in *. simpl in *.
  apply NoDup_remove in Hnd. destruct Hnd as [Hnd Hp].
  rewrite remove_block_middle.
  - apply IH. exact Hnd.
  - intros H. apply Hp. apply in_or_app. now left.
  - intros H. apply Hp. apply in_or_app. now right.
Qed.

Lemma malloc_ok_heap h :
  heap_ok h -> heap_ok (snd (malloc true h)) /\ ~ In (next h) (live h).
Proof.
  intros [Hnd Hlt].
  assert (Hfresh : ~ In (next h) (live h)).
  { intros H. apply Hlt in H. lia. }
  split; [|exact Hfresh]. split; simpl.
  - now constructor.
  - intros a [<-|Ha]; [lia|]. apply Hlt in Ha. lia.
Qed.

(** The loop either fails and leaves the live list as it was before the
    message block was allocated, or succeeds with [n] more fields live. *)
Lemma allocate_fields_heap ok m L n : forall i ps h,
  heap_ok h ->
  live h = rev ps ++ m :: L ->
  match allocate_fields ok m i n (map Some ps) h with
  | (None, h') => live h' = L
  | (Some fs, h') =>
      exists ps',
        fs = map Some ps' /\
        length ps' = (length ps + n)%nat /\
        heap_ok h' /\
        live h' = rev ps' ++ m :: L
  end.
Proof.
  induction n as [|n IH]; intros i ps h Hok Hlive; simpl.
  - exists ps. repeat split; try apply Hok; [lia|exact Hlive].
  - destruct (ok (S i)); simpl.
    + destruct (malloc_ok_heap h Hok) as [Hok' _].
      specialize (IH (S i) (ps ++ [next h])
                    {| live := next h :: live h; next := S (next h) |}
                    Hok').
      rewrite map_app in IH. simpl in IH.
      destruct (allocate_fields ok m (S i) n (map Some ps ++ [Some (next h)])
                  {| live := next h :: live h; next := S (next h) |})
        as [[fs|] h'].
      * destruct IH as (ps' & Hfs & Hlen & Hok'' & Hlive').
        { simpl. rewrite rev_app_distr, Hlive. reflexivity. }
        exists ps'. rewrite length_app in Hlen. simpl in Hlen.
        repeat split; try apply Hok''; [exact Hfs|lia|exact Hlive'].
      * apply IH. simpl. rewrite rev_app_distr, Hlive. reflexivity.
    + destruct h as [lv nx]. simpl in Hlive. subst lv.
      destruct Hok as [Hnd _]. simpl in Hnd.
      rewrite free_fields_allocated by exact Hnd. simpl.
      rewrite Nat.eqb_refl. apply remove_block_absent.
      apply NoDup_remove_2 in Hnd. intros H. apply Hnd.
      apply in_or_app. now right.
Qed.

(** The heap model and the content model of [allocate_message] fail
    together. *)
Lemma allocate_fields_agree ok pfs m n : forall i acc accp h,
  Common.allocate_fields ok pfs i n acc = None
  <-> fst (allocate_fields ok m i n accp h) = None.
Proof.
  induction n as [|n IH]; intros i acc accp h; simpl.
  - split; discriminate.
  - destruct (ok (S i)); simpl; [apply IH|]. split; reflexivity.
Qed.

Lemma allocate_message_agree ok size h :
  Common.allocate_message ok size = None
  <-> fst (allocate_message ok h) = None.
Proof.
  unfold Common.allocate_message, allocate_message, malloc.
  destruct (ok O); [|split; reflexivity].
  pose proof (allocate_fields_agree ok (Common.per_field_size size) (next h)
                (Z.to_nat Common.NUM_STRING_FIELDS) 0 [] []
                {| live := next h :: live h; next := S (next h) |}) as H.
  cbv zeta.
  destruct (Common.allocate_fields ok (Common.per_field_size size) 0
              (Z.to_nat Common.NUM_STRING_FIELDS) []) as [fs1|];
    destruct (allocate_fields ok (next h) 0
                (Z.to_nat Common.NUM_STRING_FIELDS) []
                {| live := next h :: live h; next := S (next h) |})
      as [[fs2|] h']; cbn [fst] in *.
  - split; discriminate.
  - destruct H as [_ H]. now specialize (H eq_refl).
  - destruct H as [H _]. now specialize (H eq_refl).
  - split; reflexivity.
Qed.

(** X1: construction is atomic.  When any of the nine allocations of
    [allocate_message] fails, every block allocated before it has been freed
    on return: the live blocks are those from before the call. *)
Theorem failed_allocation_leaks_nothing ok h h' :
  heap_ok h ->
  allocate_message ok h = (None, h') ->
  live h' = live h.
Proof.
  intros Hok. unfold allocate_message, malloc.
  destruct (ok O); [|now intros [= <-]].
  destruct (malloc_ok_heap h Hok) as [Hok' _].
  pose proof (allocate_fields_heap ok (next h) (live h)
                (Z.to_nat Common.NUM_STRING_FIELDS) 0 []
                {| live := next h :: live h; next := S (next h) |}
                Hok' eq_refl) as H.
  change (map Some []) with (@nil (option nat)) in H.
  destruct (allocate_fields ok (next h) 0
              (Z.to_nat Common.NUM_STRING_FIELDS) []
              {| live := next h :: live h; next := S (next h) |})
    as [[fs|] h1]; [discriminate|].
  intros [= <-]. exact H.
Qed.

Lemma failed_allocation_leaks_nothing_witness :
  live (snd (allocate_message (fun k => negb (Nat.eqb k 4%nat))
               {| live := [2; 0]%nat; next := 5%nat |}))
  = live {| live := [2; 0]%nat; next := 5%nat |}.
Proof.
  apply (failed_allocation_leaks_nothing (fun k => negb (Nat.eqb k 4%nat))
           {| live := [2; 0]%nat; next := 5%nat |}).
  - split.
    + repeat constructor; simpl; intuition discriminate.
    + simpl. intros a [<-|[<-|[]]]; lia.
  - reflexivity.
Defined.

(** X2: a message that was allocated has its own block and 8 fields, none
    of them NULL, in 9 blocks that were not live before; [free_message] on it
    gives back exactly the live blocks from before the allocation. *)
Theorem allocate_then_free_restores_heap ok h m h' :
  heap_ok h ->
  allocate_message ok h = (Some m, h') ->
  length (field_ptr m) = 8%nat /\
  (forall p, In p (field_ptr m) -> p <> None) /\
  length (live h') = (9 + length (live h))%nat /\
  heap_ok h' /\
  live (free_message (Some m) h') = live h.
Proof.
  intros Hok. unfold allocate_message, malloc.
  destruct (ok O); [|discriminate].
  destruct (malloc_ok_heap h Hok) as [Hok' Hfresh].
  pose proof (allocate_fields_heap ok (next h) (live h)
                (Z.to_nat Common.NUM_STRING_FIELDS) 0 []
                {| live := next h :: live h; next := S (next h) |}
                Hok' eq_refl) as H.
  change (map Some []) with (@nil (option nat)) in H.
  destruct (allocate_fields ok (next h) 0
              (Z.to_nat Common.NUM_STRING_FIELDS) []
              {| live := next h :: live h; next := S (next h) |})
    as [[fs|] h1]; [|discriminate].
  destruct H as (ps & -> & Hlen & Hok1 & Hlive).
  intros [= <- <-]. simpl in Hlen. simpl.
  split; [now rewrite length_map|].
  split; [intros p Hp; apply in_map_iff in Hp; destruct Hp as (a & <- & _);
          discriminate|].
  split; [rewrite Hlive, length_app, length_rev; simpl; lia|].
  split; [exact Hok1|].
  destruct h1 as [lv nx]. simpl in Hlive. subst lv.
  destruct Hok1 as [Hnd _]. simpl in Hnd.
  rewrite free_fields_allocated by exact Hnd. simpl.
  rewrite Nat.eqb_refl. apply remove_block_absent. exact Hfresh.
Qed.

Lemma allocate_then_free_restores_heap_witness :
  exists m h',
    allocate_message (fun _ => true) {| live := [2; 0]%nat; next := 5%nat |}
    = (Some m, h') /\
    length (field_ptr m) = 8%nat /\
    (forall p, In p (field_ptr m) -> p <> None) /\
    length (live h') = (9 + length [2; 0]%nat)%nat /\
    heap_ok h' /\
    live (free_message (Some m) h') = [2; 0]%nat.
Proof.
  eexists _, _. split; [reflexivity|].
  apply (allocate_then_free_restores_heap (fun _ => true)
           {| live := [2; 0]%nat; next := 5%nat |}).
  - split.
    + repeat constructor; simpl; intuition discriminate.
    + simpl. intros a [<-|[<-|[]]]; lia.
  - reflexivity.
Defined.

End HeapFacts.

(** ** More on the message model *)

Module MessageFacts.
Import Common Notions CommonFacts.

(** X3: from 8 bytes on, the effective size is the requested size rounded
    down to a multiple of 8: it loses fewer than 8 bytes, and none exactly
    when the requested size is a multiple of 8. *)
Theorem effective_size_rounds_down_to_multiple_of_8 S :
  8 <= S < SIZE_MOD ->
  let total := size_mul (per_field_size S) NUM_STRING_FIELDS in
  total = 8 * (S / 8) /\
  S - 7 <= total <= S /\
  total mod 8 = 0 /\
  (total = S <-> S mod 8 = 0).
Proof.
  intros HS. cbv zeta.
  rewrite total_size_no_wrap by lia.
  rewrite per_field_size_max by lia.
  assert (H1 : 1 <= S / 8) by (apply Z.div_le_lower_bound; lia).
  rewrite Z.max_r by lia.
  pose proof (Z.div_mod S 8 ltac:(lia)) as Hdm.
  pose proof (Z.mod_pos_bound S 8 ltac:(lia)) as Hm.
  split; [lia|]. split; [lia|]. split.
  - apply Z.mod_mul. lia.
  - lia.
Qed.

Lemma effective_size_rounds_down_to_multiple_of_8_witness :
  let total := size_mul (per_field_size 1023) NUM_STRING_FIELDS in
  total = 8 * (1023 / 8) /\
  1023 - 7 <= total <= 1023 /\
  total mod 8 = 0 /\
  (total = 1023 <-> 1023 mod 8 = 0).
Proof.
  apply (effective_size_rounds_down_to_multiple_of_8 1023).
  split; [discriminate | reflexivity].
Defined.

(** X4: the message depends on the effective size only.  Asking for the
    effective size of S gives the segment size of S again, hence the same
    message and the same serialized buffer as asking for S. *)
Theorem effective_size_is_stable S ok b fresh m :
  0 <= S < SIZE_MOD ->
  let total := size_mul (per_field_size S) NUM_STRING_FIELDS in
  per_field_size total = per_field_size S /\
  size_mul (per_field_size total) NUM_STRING_FIELDS = total /\
  allocate_message ok total = allocate_message ok S /\
  serialize_message b fresh m total = serialize_message b fresh m S.
Proof.
  intros HS. cbv zeta.
  destruct (per_field_size_range S HS) as [H1 H2].
  rewrite total_size_no_wrap by exact HS.
  assert (Hp : per_field_size (per_field_size S * 8) = per_field_size S).
  { unfold per_field_size at 1, NUM_STRING_FIELDS.
    rewrite Z.div_mul by lia.
    destruct (Z.eqb_spec (per_field_size S) 0); [lia|reflexivity]. }
  split; [exact Hp|]. split; [|split].
  - rewrite Hp. apply total_size_no_wrap. exact HS.
  - unfold allocate_message. now rewrite Hp.
  - unfold serialize_message. now rewrite Hp.
Qed.

Lemma effective_size_is_stable_witness :
  let total := size_mul (per_field_size 1023) NUM_STRING_FIELDS in
  per_field_size total = per_field_size 1023 /\
  size_mul (per_field_size total) NUM_STRING_FIELDS = total /\
  allocate_message (fun _ => true) total
  = allocate_message (fun _ => true) 1023 /\
  serialize_message true (fun _ => 0) {| field := [] |} total
  = serialize_message true (fun _ => 0) {| field := [] |} 1023.
Proof.
  apply (effective_size_is_stable 1023 (fun _ => true) true (fun _ => 0)
           {| field := [] |}).
  split; [discriminate | reflexivity].
Defined.

(** X5: serialization and the iovec array agree on every message, not only
    on a freshly allocated one.  Whatever the 8 fields hold, as long as each
    has its per_field_size bytes, the serialized buffer is exactly total_size
    bytes long, none of them left from the fresh buffer, and equal to what
    [sendmsg] gathers from the iovec array over the same fields. *)
Theorem serialize_equals_gather_on_any_message S fresh msg :
  0 <= S < SIZE_MOD ->
  (forall k, (k < 8)%nat ->
             per_field_size S <= Z.of_nat (length (nth k (field msg) []))) ->
  exists buf,
    serialize_message true fresh msg S = Some (buf, per_field_size S * 8) /\
    Z.of_nat (length buf) = per_field_size S * 8 /\
    buf = gather (setup_iov msg (per_field_size S) 0 8) /\
    forall fresh', serialize_message true fresh' msg S
                   = Some (buf, per_field_size S * 8).
Proof.
  intros HS Hlen.
  destruct (per_field_size_range S HS) as [H1 H2].
  assert (Hser : forall f,
    serialize_message true f msg S
    = Some (gather (setup_iov msg (per_field_size S) 0 8),
            per_field_size S * 8)).
  { intros f. unfold serialize_message.
    rewrite total_size_no_wrap by assumption.
    change (Z.to_nat NUM_STRING_FIELDS) with 8%nat.
    rewrite <- (app_nil_l (map _ _)).
    rewrite serialize_fields_gather; try reflexivity; try lia.
    - rewrite length_map, length_seq. lia.
    - intros k Hk. specialize (Hlen k ltac:(lia)). lia. }
  eexists. split; [apply Hser|]. split; [|split; [reflexivity|apply Hser]].
  rewrite gather_setup_iov.
  assert (Hcat : forall n i,
    (i + n <= 8)%nat ->
    length (concat (map (fun k => firstn (Z.to_nat (per_field_size S))
                                    (nth k (field msg) [])) (seq i n)))
    = (n * Z.to_nat (per_field_size S))%nat).
  { induction n as [|n IH]; intros i Hi; [reflexivity|].
    simpl. rewrite length_app, IH by lia. rewrite length_firstn.
    specialize (Hlen i ltac:(lia)). lia. }
  rewrite Hcat by lia. lia.
Qed.

Lemma serialize_equals_gather_on_any_message_witness :
  exists buf,
    serialize_message true (fun _ => 0)
      {| field := [[1; 2]; [3; 4]; [5; 6]; [7; 8];
                   [9; 10]; [11; 12]; [13; 14]; [15; 16; 17]] |} 16
    = Some (buf, per_field_size 16 * 8) /\
    Z.of_nat (length buf) = per_field_size 16 * 8 /\
    buf = gather
            (setup_iov
               {| field := [[1; 2]; [3; 4]; [5; 6]; [7; 8];
                            [9; 10]; [11; 12]; [13; 14]; [15; 16; 17]] |}
               (per_field_size 16) 0 8) /\
    forall fresh',
      serialize_message true fresh'
        {| field := [[1; 2]; [3; 4]; [5; 6]; [7; 8];
                     [9; 10]; [11; 12]; [13; 14]; [15; 16; 17]] |} 16
      = Some (buf, per_field_size 16 * 8).
Proof.
  apply (serialize_equals_gather_on_any_message 16 (fun _ => 0)
           {| field := [[1; 2]; [3; 4]; [5; 6]; [7; 8];
                        [9; 10]; [11; 12]; [13; 14]; [15; 16; 17]] |}).
  - split; [discriminate | reflexivity].
  - intros k Hk.
    do 8 (destruct k as [|k]; [vm_compute; discriminate|]). lia.
Defined.

End MessageFacts.

(** ** The one-copy sessions behave as the two-copy sessions *)

Module OneCopyFacts.
Import Common Env Notions CommonFacts.













End OneCopyFacts.

(** ** Invariants of the two-copy sessions *)

Module TwoCopyFacts.
Import Common Env Notions CommonFacts.

Ltac split_ifs :=
  repeat match goal with
         | |- context [if ?b then _ else _] =>
             let E := fresh "E" in destruct b eqn:E
         end.

Ltac bool_to_Z :=
  repeat match goal with
         | H : (_ <? _) = true |- _ => apply Z.ltb_lt in H
         | H : (_ <? _) = false |- _ => apply Z.ltb_ge in H
         | H : (_ <=? _) = true |- _ => apply Z.leb_le in H
         | H : (_ <=? _) = false |- _ => apply Z.leb_gt in H
         | H : (_ =? _) = true |- _ => apply Z.eqb_eq in H
         | H : (_ =? _) = false |- _ => apply Z.eqb_neq in H
         end.

Lemma server_step_counts s a s' :
  server_counts_in_step s -> A1Server.step s a = Some s' ->
  server_counts_in_step s'.
Proof.
  unfold server_counts_in_step, A1Server.step.
  destruct (A1Server.pc s), a; try discriminate;
    split_ifs; intros H [= <-]; simpl in *; auto; congruence.
Qed.

(** X8: the echo server answers its requests one by one.  At every point of
    a session the number of messages received is the number of messages sent,
    or one more (modulo 2^64) while the response to the last request is due
    or after the session ended on a failed send. *)
Theorem server_answers_requests_one_by_one
    ok ser_ok recv_ok fresh size dur answers s :
  A1Server.run
    (A1Server.handle_client_start ok ser_ok recv_ok fresh
       (new_context size dur)) answers = Some s ->
  server_counts_in_step s /\
  (A1Server.pc s = A1Server.AtRunning ->
   messages_sent (A1Server.ctx s) = messages_received (A1Server.ctx s)).
Proof.
  intros Hrun.
  assert (Hinv : server_counts_in_step s).
  { revert Hrun.
    assert (H0 : server_counts_in_step
                   (A1Server.handle_client_start ok ser_ok recv_ok fresh
                      (new_context size dur))).
    { unfold A1Server.handle_client_start, server_counts_in_step.
      destruct (allocate_message ok _); [|simpl; auto].
      destruct (serialize_message _ _ _ _) as [[buf sz]|]; [|simpl; auto].
      destruct recv_ok; simpl; auto. }
    revert H0. generalize (A1Server.handle_client_start ok ser_ok recv_ok
                             fresh (new_context size dur)).
    induction answers as [|a rest IH]; intros s0 H0; simpl.
    - now intros [= <-].
    - destruct (A1Server.step s0 a) as [s1|] eqn:E; [|discriminate].
      apply IH. exact (server_step_counts _ _ _ H0 E). }
  split; [exact Hinv|]. intros Hpc.
  unfold server_counts_in_step in Hinv. rewrite Hpc in Hinv. now symmetry.
Qed.

Lemma server_answers_requests_one_by_one_witness :
  exists s,
    A1Server.run
      (A1Server.handle_client_start (fun _ => true) true true (fun _ => 0)
         (new_context 8 0))
      [Running 1; Received 8 EOTHER; Sent 8 EOTHER; Running 1;
       Received 5 EOTHER] = Some s /\
    server_counts_in_step s /\
    (A1Server.pc s = A1Server.AtRunning ->
     messages_sent (A1Server.ctx s) = messages_received (A1Server.ctx s)).
Proof.
  eexists. split; [vm_compute; reflexivity|].
  apply (server_answers_requests_one_by_one (fun _ => true) true true
           (fun _ => 0) 8 0
           [Running 1; Received 8 EOTHER; Sent 8 EOTHER; Running 1;
            Received 5 EOTHER]).
  vm_compute. reflexivity.
Defined.

Lemma client_step_counts s a s' :
  client_counts_in_step s -> A1Client.step s a = Some s' ->
  client_counts_in_step s'.
Proof.
  unfold client_counts_in_step, A1Client.step, A1Client.enter_recv_loop.
  destruct (A1Client.pc s), a; try discriminate;
    repeat match goal with
           | |- context [if ?b then _ else _] => destruct b
           | |- context [Qlt_le_dec ?x ?y] => destruct (Qlt_le_dec x y)
           end;
    intros H [= <-]; simpl in *; auto; congruence.
Qed.

(** X9: the client has one exchange in flight at most.  At every point of
    a client session the number of messages sent is the number of echoes
    counted as received, or one more (modulo 2^64) while the echo of the last
    message is awaited or after the session ended on a failed [recv]. *)
Theorem client_has_one_exchange_in_flight
    ok ser_ok recv_ok fresh size dur answers s :
  A1Client.run
    (A1Client.client_thread_start ok ser_ok recv_ok fresh
       (new_context size dur)) answers = Some s ->
  client_counts_in_step s /\
  (A1Client.pc s = A1Client.AtRunning ->
   messages_sent (A1Client.ctx s) = messages_received (A1Client.ctx s)).
Proof.
  intros Hrun.
  assert (Hinv : client_counts_in_step s).
  { revert Hrun.
    assert (H0 : client_counts_in_step
                   (A1Client.client_thread_start ok ser_ok recv_ok fresh
                      (new_context size dur))).
    { unfold A1Client.client_thread_start, client_counts_in_step.
      destruct (A1Client.build_send_buffer _ _ _ _) as [[buf sz]|];
        [|simpl; auto].
      destruct recv_ok; simpl; auto. }
    revert H0. generalize (A1Client.client_thread_start ok ser_ok recv_ok
                             fresh (new_context size dur)).
    induction answers as [|a rest IH]; intros s0 H0; simpl.
    - now intros [= <-].
    - destruct (A1Client.step s0 a) as [s1|] eqn:E; [|discriminate].
      apply IH. exact (client_step_counts _ _ _ H0 E). }
  split; [exact Hinv|]. intros Hpc.
  unfold client_counts_in_step in Hinv. now rewrite Hpc in Hinv.
Qed.

Lemma client_has_one_exchange_in_flight_witness :
  exists s,
    A1Client.run
      (A1Client.client_thread_start (fun _ => true) true true (fun _ => 0)
         (new_context 8 1))
      [TimeSec 0; Running 1; TimeSec 0; TimeUs 0; Sent 3 EOTHER] = Some s /\
    client_counts_in_step s /\
    (A1Client.pc s = A1Client.AtRunning ->
     messages_sent (A1Client.ctx s) = messages_received (A1Client.ctx s)).
Proof.
  eexists. split; [vm_compute; reflexivity|].
  apply (client_has_one_exchange_in_flight (fun _ => true) true true
           (fun _ => 0) 8 1
           [TimeSec 0; Running 1; TimeSec 0; TimeUs 0; Sent 3 EOTHER]).
  vm_compute. reflexivity.
Defined.

Lemma client_step_within_buffer s a s' :
  recv_within_buffer s ->
  match A1Client.next_call s, a with
  | Recv len, Received n _ => n <= len
  | _, _ => True
  end ->
  A1Client.step s a = Some s' ->
  recv_within_buffer s'.
Proof.
  unfold recv_within_buffer, A1Client.next_call, A1Client.step,
    A1Client.enter_recv_loop, A1Client.to_ssize.
  change SIZE_MOD with 18446744073709551616.
  change (2 ^ 63) with 9223372036854775808.
  change (2 ^ 64) with 18446744073709551616.
  intros (HB & Htr & Hin).
  destruct (A1Client.pc s) eqn:Hpc, a; try discriminate; intros Hfit;
    try specialize (Hin ltac:(auto));
    repeat match goal with
           | |- context [if ?b then _ else _] =>
               let E := fresh "E" in destruct b eqn:E
           | |- context [Qlt_le_dec ?x ?y] => destruct (Qlt_le_dec x y)
           end;
    intros [= <-]; simpl in *;
    repeat match goal with
           | H : context [if ?b then _ else _] |- _ =>
               let E := fresh "E" in destruct b eqn:E
           end;
    bool_to_Z;
    try rewrite Z.mod_small in Hfit by lia;
    (split; [lia|split; [lia|intros [?|?]; try discriminate; lia]]).
Qed.

(** X10: the receive loop of the client stays within its buffer.  If [recv]
    never returns more than it was asked for, then throughout a session the
    receive position is between 0 and the buffer size, and every [recv] is
    asked for at least one byte and for exactly the bytes that are left, so
    nothing is written past the end of the receive buffer. *)
Theorem client_recv_stays_within_buffer
    ok ser_ok recv_ok fresh c answers s :
  0 <= msg_size c < SIZE_MOD ->
  recv_honest (A1Client.client_thread_start ok ser_ok recv_ok fresh c)
    answers ->
  A1Client.run (A1Client.client_thread_start ok ser_ok recv_ok fresh c)
    answers = Some s ->
  0 <= A1Client.total_recv s <= A1Client.buffer_size s /\
  (A1Client.pc s = A1Client.AtRecv ->
   exists len,
     A1Client.next_call s = Recv len /\
     0 < len /\
     A1Client.total_recv s + len = A1Client.buffer_size s).
Proof.
  intros HS Hhonest Hrun.
  assert (H0 : recv_within_buffer
                 (A1Client.client_thread_start ok ser_ok recv_ok fresh c)).
  { unfold A1Client.client_thread_start, A1Client.build_send_buffer,
      recv_within_buffer.
    change SIZE_MOD with 18446744073709551616.
    destruct (allocate_message ok (msg_size c)) as [m|] eqn:Em;
      [|simpl; (split; [lia|split; [lia|intros [?|?]; discriminate]])].
    destruct ser_ok;
      [|simpl; (split; [lia|split; [lia|intros [?|?]; discriminate]])].
    rewrite (serialize_allocated ok fresh _ m HS Em).
    destruct (per_field_size_range _ HS) as [Hp1 Hp2].
    change SIZE_MOD with 18446744073709551616 in Hp2.
    destruct recv_ok; simpl;
      (split; [lia|split; [lia|intros [?|?]; discriminate]]). }
  assert (Hinv : recv_within_buffer s).
  { revert Hhonest Hrun H0.
    generalize (A1Client.client_thread_start ok ser_ok recv_ok fresh c).
    induction answers as [|a rest IH]; intros s0; simpl.
    - now intros _ [= <-].
    - intros [Hfit Hrest]. destruct (A1Client.step s0 a) as [s1|] eqn:E;
        [|discriminate].
      intros Hrun H0. apply (IH s1 Hrest Hrun).
      exact (client_step_within_buffer _ _ _ H0 Hfit E). }
  destruct Hinv as (HB & Htr & Hin). split; [exact Htr|].
  intros Hpc. specialize (Hin (or_intror Hpc)).
  unfold A1Client.next_call. rewrite Hpc.
  change SIZE_MOD with 18446744073709551616 in *.
  change (2 ^ 63) with 9223372036854775808 in *.
  eexists. split; [reflexivity|]. rewrite Z.mod_small by lia. lia.
Qed.

Lemma client_recv_stays_within_buffer_witness :
  exists s,
    A1Client.run
      (A1Client.client_thread_start (fun _ => true) true true (fun _ => 0)
         (new_context 8 1))
      [TimeSec 0; Running 1; TimeSec 0; TimeUs 0; Sent 8 EOTHER;
       Running 1; Received 3 EOTHER; Running 1] = Some s /\
    0 <= A1Client.total_recv s <= A1Client.buffer_size s /\
    (A1Client.pc s = A1Client.AtRecv ->
     exists len,
       A1Client.next_call s = Recv len /\
       0 < len /\
       A1Client.total_recv s + len = A1Client.buffer_size s).
Proof.
  eexists. split; [vm_compute; reflexivity|].
  apply (client_recv_stays_within_buffer (fun _ => true) true true
           (fun _ => 0) (new_context 8 1)
           [TimeSec 0; Running 1; TimeSec 0; TimeUs 0; Sent 8 EOTHER;
            Running 1; Received 3 EOTHER; Running 1]).
  - split; [discriminate | reflexivity].
  - vm_compute. repeat split; discriminate.
  - vm_compute. reflexivity.
Defined.

Lemma client_step_latency last s a s' :
  latency_consistent last s ->
  match a with TimeUs t => (last <= t)%Q | _ => True end ->
  A1Client.step s a = Some s' ->
  latency_consistent (clock_after last a) s'.
Proof.
  unfold latency_consistent, A1Client.step, A1Client.enter_recv_loop.
  intros (Hlat & Hstart).
  destruct (A1Client.pc s) eqn:Hpc, a; try discriminate; intros Hmono;
    repeat match goal with
           | |- context [if ?b then _ else _] => destruct b
           | |- context [Qlt_le_dec ?x ?y] => destruct (Qlt_le_dec x y)
           end;
    intros [= <-]; simpl in *;
    try specialize (Hstart ltac:(auto));
    (split; [try assumption; try lra
            |intros [?|[?|[?|?]]]; try discriminate;
             try assumption; try lra]).
Qed.

(** X11: as long as the microsecond clock does not run backwards, the
    latency a client session has accumulated is never negative. *)
Theorem client_latency_never_negative
    ok ser_ok recv_ok fresh size dur t0 answers s :
  us_nondecreasing t0 answers ->
  A1Client.run
    (A1Client.client_thread_start ok ser_ok recv_ok fresh
       (new_context size dur)) answers = Some s ->
  (0 <= total_latency_us (A1Client.ctx s))%Q.
Proof.
  intros Hmono Hrun.
  assert (H0 : latency_consistent t0
                 (A1Client.client_thread_start ok ser_ok recv_ok fresh
                    (new_context size dur))).
  { unfold A1Client.client_thread_start, latency_consistent.
    destruct (A1Client.build_send_buffer _ _ _ _) as [[buf sz]|];
      [destruct recv_ok|]; simpl;
      (split; [lra|intros [?|[?|[?|?]]]; discriminate]). }
  revert Hmono Hrun H0.
  generalize (A1Client.client_thread_start ok ser_ok recv_ok fresh
                (new_context size dur)).
  revert t0. induction answers as [|a rest IH]; intros t0 s0; simpl.
  - intros _ [= <-] H. apply H.
  - intros Hmono. destruct (A1Client.step s0 a) as [s1|] eqn:E;
      [|discriminate].
    intros Hrun H0. apply (IH (clock_after t0 a) s1).
    + destruct a; simpl; try exact Hmono. apply Hmono.
    + exact Hrun.
    + apply (client_step_latency _ _ _ _ H0); [|exact E].
      destruct a; try exact I. apply Hmono.
Qed.

Lemma client_latency_never_negative_witness :
  exists s,
    A1Client.run
      (A1Client.client_thread_start (fun _ => true) true true (fun _ => 0)
         (new_context 8 1))
      [TimeSec 0; Running 1; TimeSec 0; TimeUs 100; Sent 8 EOTHER;
       Running 1; Received 8 EOTHER; TimeUs 110] = Some s /\
    (0 <= total_latency_us (A1Client.ctx s))%Q.
Proof.
  eexists. split; [vm_compute; reflexivity|].
  apply (client_latency_never_negative (fun _ => true) true true
           (fun _ => 0) 8 1 0
           [TimeSec 0; Running 1; TimeSec 0; TimeUs 100; Sent 8 EOTHER;
            Running 1; Received 8 EOTHER; TimeUs 110]).
  - vm_compute. repeat split; discriminate.
  - vm_compute. reflexivity.
Defined.

End TwoCopyFacts.

(** ** More on the client loop and the summary *)

Module SummaryMoreFacts.
Import Common Env Notions SummaryFacts.
Import A1Client.

(** X12: the echo invariant.  [M] complete exchanges of the whole buffer of
    [B] bytes, from the head of the client loop, bring the session back to the
    head of the loop with bytes sent and bytes received both grown by M * B
    and messages sent and received both grown by M, all modulo 2^64. *)
Theorem complete_exchanges_count_exactly s now t0 t1 (M : nat) :
  pc s = AtRunning ->
  (now < end_time s)%Q ->
  0 < buffer_size s < 2 ^ 63 ->
  bytes_sent (ctx s) mod SIZE_MOD = bytes_sent (ctx s) ->
  bytes_received (ctx s) mod SIZE_MOD = bytes_received (ctx s) ->
  messages_sent (ctx s) mod SIZE_MOD = messages_sent (ctx s) ->
  messages_received (ctx s) mod SIZE_MOD = messages_received (ctx s) ->
  exists s',
    run s (concat (repeat (complete_exchange now t0 t1 (buffer_size s)) M))
    = Some s' /\
    pc s' = AtRunning /\
    bytes_sent (ctx s')
    = (bytes_sent (ctx s) + Z.of_nat M * buffer_size s) mod SIZE_MOD /\
    bytes_received (ctx s')
    = (bytes_received (ctx s) + Z.of_nat M * buffer_size s) mod SIZE_MOD /\
    messages_sent (ctx s')
    = (messages_sent (ctx s) + Z.of_nat M) mod SIZE_MOD /\
    messages_received (ctx s')
    = (messages_received (ctx s) + Z.of_nat M) mod SIZE_MOD.
Proof.
  intros Hpc Hnow HB H1 H2 H3 H4.
  destruct (run_complete_exchanges now t0 t1 M s Hpc Hnow HB)
    as (s' & Hrun & Hpc' & Hctx).
  destruct (count_exchanges_counters (buffer_size s) (t1 - t0) M (ctx s)
              H1 H2 H3 H4) as (C1 & C2 & C3 & C4).
  exists s'. rewrite Hctx. repeat split; assumption.
Qed.

Lemma complete_exchanges_count_exactly_witness :
  exists s',
    run {| pc := AtRunning; ctx := new_context 8 1;
           send_buffer := [65; 66; 67; 68; 69; 70; 71; 72];
           buffer_size := 8; end_time := 1%Q; send_start := 0%Q;
           total_recv := 0 |}
      (concat (repeat (complete_exchange 0 100 110 8) 3)) = Some s' /\
    pc s' = AtRunning /\
    bytes_sent (ctx s') = (0 + Z.of_nat 3 * 8) mod SIZE_MOD /\
    bytes_received (ctx s') = (0 + Z.of_nat 3 * 8) mod SIZE_MOD /\
    messages_sent (ctx s') = (0 + Z.of_nat 3) mod SIZE_MOD /\
    messages_received (ctx s') = (0 + Z.of_nat 3) mod SIZE_MOD.
Proof.
  apply (complete_exchanges_count_exactly
           {| pc := AtRunning; ctx := new_context 8 1;
              send_buffer := [65; 66; 67; 68; 69; 70; 71; 72];
              buffer_size := 8; end_time := 1%Q; send_start := 0%Q;
              total_recv := 0 |} 0 100 110 3);
    try reflexivity.
  split; reflexivity.
Defined.

Import PrimFloat.

Lemma summary_of_complete_exchanges_witness :
  A1Main.summary
    [A1Main.Context
       (A1Main.joined (count_exchanges 1024 50 100 (new_context 1024 1))
          5000%float)] 1
  = Some (A1Main.Figures
            (A1Main.double_of_Z (Z.of_nat 100 * 1024 * 2) * 8
             / (A1Main.double_of_Z 1 * 1000000000))%float
            ((0 + 5000) / A1Main.double_of_Z (Z.of_nat 100))%float).
Proof.
  apply (summary_of_complete_exchanges 1024 1 1024 50 100 5000%float).
  - apply Nat.lt_0_succ.
  - reflexivity.
  - reflexivity.
Defined.

Lemma join_undefined contexts :
  A1Main.join_all contexts = None <-> Exists (eq A1Main.Unassigned) contexts.
Proof.
  unfold A1Main.join_all. generalize A1Main.no_totals.
  induction contexts as [|slot rest IH]; intros t; cbn [A1Main.join_from].
  - split; [discriminate|]. intros H. inversion H.
  - destruct slot as [| |c]; cbn [A1Main.join_one].
    + split; [intros _; now left|reflexivity].
    + rewrite IH. split; [intros H; now right|].
      intros H. inversion H as [? ? Heq|? ? Hrest]; [discriminate|exact Hrest].
    + rewrite IH. split; [intros H; now right|].
      intros H. inversion H as [? ? Heq|? ? Hrest]; [discriminate|exact Hrest].
Qed.

(** On any array: the outcome is undetermined exactly when a slot is
    unassigned, and no figures are printed exactly when every slot holds
    [NULL] or the total of messages sent is 0. *)
Lemma summary_outcomes contexts dur :
  (A1Main.summary contexts dur = None
   <-> Exists (eq A1Main.Unassigned) contexts) /\
  (A1Main.summary contexts dur = Some A1Main.NoSuccessfulConnections
   <-> Forall (eq A1Main.Null) contexts
       \/ (Forall assigned contexts
           /\ sum_Z A1Main.messages_sent contexts mod SIZE_MOD = 0)).
Proof.
  split.
  - rewrite <- join_undefined. unfold A1Main.summary.
    destruct (A1Main.join_all contexts) as [t|]; [|tauto].
    destruct (_ && _); split; discriminate.
  - unfold A1Main.summary.
    destruct (A1Main.join_all contexts) as [t|] eqn:Ht.
    + destruct (join_all_sums contexts t Ht) as (_ & _ & Hm & _ & Ha).
      pose proof (join_some_assigned _ _ _ Ht) as Hall.
      pose proof (threads_joined_nonneg contexts) as Hn.
      pose proof (Z.mod_pos_bound (sum_Z A1Main.messages_sent contexts)
                    SIZE_MOD eq_refl) as Hb.
      rewrite Ha, Hm, no_thread_joined.
      destruct (Z.ltb_spec 0 (threads_joined contexts)) as [Hp|Hp];
        destruct (Z.ltb_spec 0
                    (sum_Z A1Main.messages_sent contexts mod SIZE_MOD))
          as [Hq|Hq]; cbv [andb].
      * split; [discriminate|]. intros [[_ H]|[_ H]]; lia.
      * split; [|reflexivity]. intros _. right. split; [exact Hall|lia].
      * split; [|reflexivity]. intros _. left. split; [exact Hall|lia].
      * split; [|reflexivity]. intros _. right. split; [exact Hall|lia].
    + split; [discriminate|].
      apply join_undefined in Ht.
      assert (Hno : ~ Forall assigned contexts).
      { intros Hall. rewrite Forall_forall in Hall.
        apply Exists_exists in Ht. destruct Ht as (x & Hin & <-).
        now apply (Hall _ Hin). }
      intros [H|[H _]]; [apply no_thread_joined in H; destruct H|];
        contradiction.
Qed.

(** What a turn of the creation loop leaves in its slot. *)
Lemma created_slots attempts :
  (Exists (eq A1Main.Unassigned) (A1Main.create_threads attempts)
   <-> Exists (fun a => ~ connected a) attempts) /\
  (Forall (eq A1Main.Null) (A1Main.create_threads attempts)
   <-> Forall not_started attempts) /\
  (Forall assigned (A1Main.create_threads attempts)
   <-> Forall connected attempts).
Proof.
  unfold A1Main.create_threads, connected, not_started, assigned.
  rewrite Exists_map, !Forall_map.
  split; [|split].
  - split; apply Exists_impl; intros [| | | |c]; cbn [A1Main.create_thread];
      try discriminate; try tauto;
      intros H; exfalso; apply H; split; discriminate.
  - split; apply Forall_impl; intros [| | | |c]; cbn [A1Main.create_thread];
      try discriminate; try tauto; intros [H|H]; discriminate H.
  - split; apply Forall_impl; intros [| | | |c]; cbn [A1Main.create_thread];
      try tauto; try (intros _; split; discriminate); try discriminate.
Qed.

(** X14: the contexts array is not cleared and the join loop reads every
    slot of it, so the outcome of the summary is determined by the program
    exactly when every turn of the creation loop got its connection; it is then
    "No successful connections." exactly when no turn started a thread or the
    total of messages sent, taken modulo 2^64, is 0. *)
Theorem summary_is_empty_iff attempts dur :
  (A1Main.summary (A1Main.create_threads attempts) dur = None
   <-> Exists (fun a => ~ connected a) attempts) /\
  (A1Main.summary (A1Main.create_threads attempts) dur
   = Some A1Main.NoSuccessfulConnections
   <-> Forall not_started attempts
       \/ (Forall connected attempts
           /\ sum_Z A1Main.messages_sent (A1Main.create_threads attempts)
                mod SIZE_MOD = 0)).
Proof.
  destruct (summary_outcomes (A1Main.create_threads attempts) dur)
    as [Hnone Hempty].
  destruct (created_slots attempts) as (Hu & Hn & Ha).
  rewrite Hnone, Hempty, Hu, Hn, Ha. split; reflexivity.
Qed.

(** With three connections, of which one lacks the thread and the others
    send nothing, no figures are printed; with a failed [connect] among them
    the outcome is not determined. *)
Example summary_of_failed_attempts :
  let idle :=
    A1Main.Started
      {| A1Main.bytes_sent := 0; A1Main.bytes_received := 0;
         A1Main.messages_sent := 0; A1Main.messages_received := 0;
         A1Main.total_latency_us := 0%float |} in
  A1Main.summary (A1Main.create_threads [idle; A1Main.NoThread; idle]) 1
  = Some A1Main.NoSuccessfulConnections /\
  A1Main.summary (A1Main.create_threads [idle; A1Main.ConnectFailed; idle]) 1
  = None.
Proof. split; reflexivity. Qed.

Lemma sum_Z_permutation f contexts contexts' :
  Permutation contexts contexts' -> sum_Z f contexts = sum_Z f contexts'.
Proof.
  induction 1 as [|slot l l' _ IH|x y l|l l' l'' _ IH1 _ IH2];
    cbn [sum_Z].
  - reflexivity.
  - destruct slot; now rewrite IH.
  - destruct x, y; lia.
  - congruence.
Qed.

(** X15: the throughput, and whether figures are printed at all, do not
    depend on the order in which the sessions sit in the context array: two
    arrays with the same slots in any order give the same throughput, or both
    "No successful connections.", or are both left undetermined by an
    unassigned slot.  (The average latency is another matter: its doubles are
    added in the order of the array.) *)
Theorem summary_ignores_order contexts contexts' dur :
  Permutation contexts contexts' ->
  match A1Main.summary contexts dur, A1Main.summary contexts' dur with
  | Some (A1Main.Figures thr _), Some (A1Main.Figures thr' _) => thr = thr'
  | Some A1Main.NoSuccessfulConnections,
    Some A1Main.NoSuccessfulConnections => True
  | None, None => True
  | _, _ => False
  end.
Proof.
  intros Hp. unfold A1Main.summary.
  destruct (A1Main.join_all contexts) as [t|] eqn:Ht;
    destruct (A1Main.join_all contexts') as [t'|] eqn:Ht'.
  - destruct (join_all_sums contexts t Ht) as (Hs & Hr & Hm & _ & Ha).
    destruct (join_all_sums contexts' t' Ht') as (Hs' & Hr' & Hm' & _ & Ha').
    unfold threads_joined in Ha, Ha'.
    rewrite (sum_Z_permutation A1Main.bytes_sent _ _ Hp) in Hs.
    rewrite (sum_Z_permutation A1Main.bytes_received _ _ Hp) in Hr.
    rewrite (sum_Z_permutation A1Main.messages_sent _ _ Hp) in Hm.
    rewrite (sum_Z_permutation (fun _ => 1) _ _ Hp) in Ha.
    rewrite <- Hs' in Hs. rewrite <- Hr' in Hr. rewrite <- Hm' in Hm.
    rewrite <- Ha' in Ha.
    rewrite Ha, Hm.
    destruct ((0 <? A1Main.active_threads t')
              && (0 <? A1Main.total_messages t')); [|exact I].
    unfold A1Main.throughput_gbps. now rewrite Hs, Hr.
  - exfalso. apply join_some_assigned in Ht. apply join_undefined in Ht'.
    apply (Permutation_Forall Hp) in Ht.
    rewrite Forall_forall in Ht. apply Exists_exists in Ht'.
    destruct Ht' as (x & Hin & <-). exact (Ht _ Hin eq_refl).
  - exfalso. apply join_some_assigned in Ht'. apply join_undefined in Ht.
    apply (Permutation_Forall (Permutation_sym Hp)) in Ht'.
    rewrite Forall_forall in Ht'. apply Exists_exists in Ht.
    destruct Ht as (x & Hin & <-). exact (Ht' _ Hin eq_refl).
  - exact I.
Qed.

Lemma summary_ignores_order_witness :
  match
    A1Main.summary
      [A1Main.Context (A1Main.joined (count_exchange 8 10 (new_context 8 1))
                         10%float);
       A1Main.Null;
       A1Main.Context (A1Main.joined (count_exchange 16 30 (new_context 16 1))
                         30%float)] 1,
    A1Main.summary
      [A1Main.Context (A1Main.joined (count_exchange 16 30 (new_context 16 1))
                         30%float);
       A1Main.Context (A1Main.joined (count_exchange 8 10 (new_context 8 1))
                         10%float);
       A1Main.Null] 1
  with
  | Some (A1Main.Figures thr _), Some (A1Main.Figures thr' _) => thr = thr'
  | Some A1Main.NoSuccessfulConnections,
    Some A1Main.NoSuccessfulConnections => True
  | None, None => True
  | _, _ => False
  end.
Proof.
  apply (summary_ignores_order
           [A1Main.Context
              (A1Main.joined (count_exchange 8 10 (new_context 8 1))
                 10%float);
            A1Main.Null;
            A1Main.Context
              (A1Main.joined (count_exchange 16 30 (new_context 16 1))
                 30%float)]
           [A1Main.Context
              (A1Main.joined (count_exchange 16 30 (new_context 16 1))
                 30%float);
            A1Main.Context
              (A1Main.joined (count_exchange 8 10 (new_context 8 1))
                 10%float);
            A1Main.Null] 1).
  apply Permutation_sym.
  apply (Permutation_cons_app
           [A1Main.Context
              (A1Main.joined (count_exchange 8 10 (new_context 8 1))
                 10%float);
            A1Main.Null] []).
  apply Permutation_refl.
Defined.

(** The average latency does depend on the order: three sessions with one
    message each and latencies 2^53, 1 and 1 give (2^53 + 1 + 1) / 3 with every
    sum rounded, which is 2^53 / 3 in one order and (2^53 + 2) / 3 in the
    other. *)
Example average_latency_depends_on_order :
  let session latency :=
    A1Main.Context
      {| A1Main.bytes_sent := 8; A1Main.bytes_received := 8;
         A1Main.messages_sent := 1; A1Main.messages_received := 1;
         A1Main.total_latency_us := latency |} in
  exists thr avg avg',
    A1Main.summary
      [session 9007199254740992%float; session 1%float; session 1%float] 1
    = Some (A1Main.Figures thr avg) /\
    A1Main.summary
      [session 1%float; session 1%float; session 9007199254740992%float] 1
    = Some (A1Main.Figures thr avg') /\
    avg = (9007199254740992 / 3)%float /\
    avg' = (9007199254740994 / 3)%float /\
    avg <> avg'.
Proof.
  eexists _, _, _. split; [vm_compute; reflexivity|].
  split; [vm_compute; reflexivity|].
  split; [vm_compute; reflexivity|]. split; [vm_compute; reflexivity|].
  vm_compute. intros H. discriminate H.
Qed.

End SummaryMoreFacts.

(** ** More on the zero-copy session *)

Module ZeroCopyMoreFacts.
Import Common Env Notions CommonFacts A3Facts.
Import A3Server.

(** X16: in a run of fewer than 2^31 answers of the environment the count
    of pending completions, an [int], cannot overflow, since it grows by at
    most 1 per answer; it is then never negative, being decremented only where
    a loop test has just found it positive, and it is positive wherever the
    session is about to poll at the loop head or in the teardown. *)
Theorem pending_completions_never_negative msg_ok recv_ok c answers s :
  Z.of_nat (length answers) < 2 ^ 31 ->
  run (handle_client_start msg_ok recv_ok c) answers = Some s ->
  0 <= pending_completions s <= Z.of_nat (length answers) /\
  pending_completions s < 2 ^ 31 /\
  (pc s = AtPollTop \/ pc s = AtPollDrain -> 0 < pending_completions s).
Proof.
  intros Hlen H.
  pose proof (run_pending_at_most_length _ _ _ H) as Hup.
  rewrite start_pending_zero in Hup.
  apply (run_pending_consistent _ _ _ (start_pending_consistent _ _ _)) in H.
  destruct H as (H0 & Hpos & _).
  split; [lia|]. split; [lia|exact Hpos].
Qed.

Lemma pending_completions_never_negative_witness :
  exists s,
    run (handle_client_start (fun _ => true) true (new_context 8 0))
      [Running 1; Received 8 EOTHER; Sent 8 EOTHER;
       Running 1; completion_ready; Received 8 EOTHER] = Some s /\
    0 <= pending_completions s <= 6 /\
    pending_completions s < 2 ^ 31 /\
    (pc s = AtPollTop \/ pc s = AtPollDrain -> 0 < pending_completions s).
Proof.
  eexists. split; [vm_compute; reflexivity|].
  apply (pending_completions_never_negative (fun _ => true) true
           (new_context 8 0)
           [Running 1; Received 8 EOTHER; Sent 8 EOTHER;
            Running 1; completion_ready; Received 8 EOTHER]).
  - reflexivity.
  - vm_compute. reflexivity.
Defined.

Lemma pending_bounded_without_queue_error_witness :
  exists s,
    run (handle_client_start (fun _ => true) true (new_context 8 0))
      [Running 1; Received 8 EOTHER; Sent 8 EOTHER;
       Running 1; no_notification; Received 8 EOTHER; Sent 8 EOTHER]
    = Some s /\
    0 <= pending_completions s <= max_pending.
Proof.
  eexists. split; [vm_compute; reflexivity|].
  apply (pending_bounded_without_queue_error (fun _ => true) true
           (new_context 8 0)
           [Running 1; Received 8 EOTHER; Sent 8 EOTHER;
            Running 1; no_notification; Received 8 EOTHER; Sent 8 EOTHER]).
  - repeat constructor; vm_compute; discriminate.
  - vm_compute. reflexivity.
Defined.

Lemma enobufs_returns_to_loop_head_witness :
  exists s1 s2,
    step {| pc := AtSendmsg; ctx := new_context 8 0; total_size := 8;
            msg := None; msg_freed := false; pending_completions := 3 |}
      (Sent (-1) ENOBUFS) = Some s1 /\
    step s1 completion_ready = Some s2 /\
    pc s2 = AtRunning /\
    ctx s2 = new_context 8 0 /\
    pending_completions s2 = 3.
Proof.
  apply (enobufs_returns_to_loop_head
           {| pc := AtSendmsg; ctx := new_context 8 0; total_size := 8;
              msg := None; msg_freed := false; pending_completions := 3 |}
           (-1)
           {| rm_ret := 0; rm_errno := EOTHER;
              rm_cmsg := Some (SOL_IP, IP_RECVERR) |});
    reflexivity.
Defined.

Lemma goto_same l s : pc s = l -> goto l s = s.
Proof. intros <-. now destruct s. Qed.

(** X19: while the session waits below the send for the count to drop under
    the cap and the error queue stays empty, nothing moves: however many
    times the queue is read, the session is at the same read, with the same
    statistics, and reaches neither [sendmsg] nor [recv]. *)
Theorem wait_before_send_spins_on_empty_queue s (n : nat) :
  pc s = AtPollWait ->
  max_pending <= pending_completions s ->
  run s (repeat no_notification n) = Some s.
Proof.
  intros Hpc Hfull. induction n as [|n IH]; [reflexivity|].
  simpl. unfold step. rewrite Hpc. simpl.
  unfold enter_poll_wait.
  destruct (Z.leb_spec max_pending (pending_completions s)); [|lia].
  rewrite (goto_same _ _ Hpc). exact IH.
Qed.

Lemma wait_before_send_spins_on_empty_queue_witness :
  run {| pc := AtPollWait; ctx := new_context 8 0; total_size := 8;
         msg := None; msg_freed := false; pending_completions := 8 |}
    (repeat no_notification 5)
  = Some {| pc := AtPollWait; ctx := new_context 8 0; total_size := 8;
            msg := None; msg_freed := false; pending_completions := 8 |}.
Proof.
  apply (wait_before_send_spins_on_empty_queue
           {| pc := AtPollWait; ctx := new_context 8 0; total_size := 8;
              msg := None; msg_freed := false; pending_completions := 8 |}
           5).
  - reflexivity.
  - discriminate.
Defined.



Lemma step_keeps_message size s a s' :
  keeps_message size s -> step s a = Some s' -> keeps_message size s'.
Proof.
  unfold keeps_message, step. intros (Hsize & Htotal & Hmsg).
  destruct (pc s) eqn:Hpc, a; try discriminate;
    destruct Hmsg as [Hex|Hmsg]; try discriminate;
    loop_test; session_cases; intros [= <-]; simpl; auto.
Qed.

Lemma start_keeps_message msg_ok recv_ok c :
  keeps_message (msg_size c) (handle_client_start msg_ok recv_ok c).
Proof.
  unfold keeps_message, handle_client_start.
  destruct (allocate_message msg_ok (msg_size c)) as [m|] eqn:Em.
  - apply allocate_message_some in Em.
    destruct recv_ok; simpl; repeat split; eauto.
  - simpl. repeat split. now left.
Qed.

Lemma run_keeps_message size answers : forall s s',
  keeps_message size s -> run s answers = Some s' -> keeps_message size s'.
Proof.
  induction answers as [|a rest IH]; intros s s' Hs; simpl.
  - now intros [= <-].
  - destruct (step s a) as [s1|] eqn:E; [|discriminate].
    apply IH. exact (step_keeps_message _ _ _ _ Hs E).
Qed.

(** X21: every response of the zero-copy server is the whole message.  At
    each [sendmsg] of a session the iovec array, passed with MSG_ZEROCOPY,
    gathers exactly the bytes a two-copy session of the same message size
    holds in its serialized send buffer, total_size of them. *)
Theorem zero_copy_sends_the_serialized_message
    msg_ok recv_ok c answers s ok1 ser_ok fresh buf total :
  0 <= msg_size c < SIZE_MOD ->
  run (handle_client_start msg_ok recv_ok c) answers = Some s ->
  pc s = AtSendmsg ->
  A1Client.build_send_buffer ok1 ser_ok fresh c = Some (buf, total) ->
  next_call s = Sendmsg buf true /\
  Z.of_nat (length buf) = total /\
  total_size s = total.
Proof.
  intros HS Hrun Hpc Hbuf.
  destruct (run_keeps_message _ _ _ _ (start_keeps_message msg_ok recv_ok c)
              Hrun) as (Hsize & Htotal & [Hex|(m & Hm & Hf)]);
    [congruence|].
  unfold A1Client.build_send_buffer in Hbuf.
  destruct (allocate_message ok1 (msg_size c)) as [m1|] eqn:E1;
    [|discriminate].
  destruct ser_ok; [|discriminate].
  rewrite (serialize_allocated ok1 fresh _ m1 HS E1) in Hbuf.
  injection Hbuf as <- <-.
  pose proof (allocate_message_some _ _ _ E1) as F1.
  destruct (per_field_size_range _ HS) as [Hp1 Hp2].
  unfold next_call. rewrite Hpc, Hm, Hsize.
  change (Z.to_nat NUM_STRING_FIELDS) with 8%nat.
  rewrite (gather_allocated m _ Hf), Hf, F1.
  split; [reflexivity|]. split.
  - rewrite length_concat_pattern. lia.
  - rewrite Htotal. apply total_size_no_wrap. exact HS.
Qed.

Lemma zero_copy_sends_the_serialized_message_witness :
  exists s,
    run (handle_client_start (fun _ => true) true (new_context 8 0))
      [Running 1; Received 3 EOTHER] = Some s /\
    next_call s = Sendmsg [65; 66; 67; 68; 69; 70; 71; 72] true /\
    Z.of_nat (length [65; 66; 67; 68; 69; 70; 71; 72]) = 8 /\
    total_size s = 8.
Proof.
  eexists. split; [vm_compute; reflexivity|].
  apply (zero_copy_sends_the_serialized_message (fun _ => true) true
           (new_context 8 0) [Running 1; Received 3 EOTHER] _
           (fun _ => true) true (fun _ => 0)).
  - split; [discriminate | reflexivity].
  - vm_compute. reflexivity.
  - reflexivity.
  - reflexivity.
Defined.

End ZeroCopyMoreFacts.

(** ** More on the accept loop *)

Module AdmissionMoreFacts.
Import Common Notions AdmissionFacts.
Import Admission.

Ltac server_cases :=
  repeat match goal with
         | |- context [if ?b then _ else _] =>
             let E := fresh "E" in destruct b eqn:E
         end.

Ltac server_bools :=
  repeat match goal with
         | H : (_ <? _) = true |- _ => apply Z.ltb_lt in H
         | H : (_ <? _) = false |- _ => apply Z.ltb_ge in H
         | H : (_ <=? _) = true |- _ => apply Z.leb_le in H
         | H : (_ <=? _) = false |- _ => apply Z.leb_gt in H
         end.

Lemma step_shutdown_consistent max_threads s e s' :
  shutdown_consistent s ->
  step max_threads s e = Some s' ->
  shutdown_consistent s'.
Proof.
  unfold shutdown_consistent, step. intros (Hcount & Hret).
  destruct e, (main_pc s) eqn:Hpc; try discriminate;
    unfold enter_wait, main_goto, locked_add, close_socket;
    try (destruct (remove_first id (sessions s)) as [rest|] eqn:Hrm;
         [apply length_remove_first in Hrm; destruct Hrm as [_ Hlen]
         |discriminate]);
    server_cases; intros [= <-]; simpl in *; server_bools;
    try specialize (Hret eq_refl);
    (split; [lia|intros ?; try discriminate; lia]).
Qed.

Lemma run_shutdown_consistent max_threads events : forall s s',
  shutdown_consistent s ->
  run max_threads s events = Some s' ->
  shutdown_consistent s'.
Proof.
  induction events as [|e rest IH]; intros s s' Hs; simpl.
  - now intros [= <-].
  - destruct (step max_threads s e) as [s1|] eqn:E; [|discriminate].
    apply IH. exact (step_shutdown_consistent _ _ _ _ Hs E).
Qed.

(** X22: graceful shutdown abandons no session.  Whatever the maximum, when
    [main] has returned the active-session count is 0 and no session is still
    running; and from then on nothing happens any more. *)
Theorem main_returns_only_when_no_session_runs max_threads events s :
  run max_threads server_start events = Some s ->
  main_pc s = Returned ->
  num_active_clients s = 0 /\
  sessions s = [] /\
  forall e, step max_threads s e = None.
Proof.
  intros Hrun Hpc.
  assert (H0 : shutdown_consistent server_start).
  { split; [reflexivity|discriminate]. }
  destruct (run_shutdown_consistent _ _ _ _ H0 Hrun) as [Hcount Hret].
  specialize (Hret Hpc). rewrite Hpc, Hret in Hcount. simpl in Hcount.
  assert (Hnil : sessions s = []).
  { destruct (sessions s); [reflexivity|simpl in Hcount; lia]. }
  split; [exact Hret|]. split; [exact Hnil|].
  intros e. unfold step. rewrite Hpc, Hnil. destruct e; reflexivity.
Qed.

Lemma main_returns_only_when_no_session_runs_witness :
  exists s,
    run 2 server_start
      [Running 1; Accepted 4; MallocCtx true; PthreadCreate true;
       Running 0; Slept; SessionExit 0; Slept] = Some s /\
    num_active_clients s = 0 /\
    sessions s = [] /\
    forall e, step 2 s e = None.
Proof.
  eexists. split; [vm_compute; reflexivity|].
  apply (main_returns_only_when_no_session_runs 2
           [Running 1; Accepted 4; MallocCtx true; PthreadCreate true;
            Running 0; Slept; SessionExit 0; Slept]).
  - vm_compute. reflexivity.
  - reflexivity.
Defined.

Lemma remove_first_keeps id : forall l rest,
  remove_first id l = Some rest ->
  (forall x, In x rest -> In x l) /\ (NoDup l -> NoDup rest).
Proof.
  induction l as [|y l IH]; intros rest; simpl; [discriminate|].
  destruct (Z.eqb_spec y id) as [->|Hne].
  - intros [= <-]. split; [intros x Hx; now right|].
    intros H. now inversion H.
  - destruct (remove_first id l) as [rest'|]; [|discriminate].
    intros [= <-]. destruct (IH rest' eq_refl) as [Hin Hnd].
    split.
    + intros x [<-|Hx]; [now left|right; now apply Hin].
    + intros H. inversion H as [|? ? Hy Hl]. subst.
      constructor; [|now apply Hnd]. intros Hy'. apply Hy. now apply Hin.
Qed.

Lemma step_ids_distinct max_threads s e s' :
  ids_distinct s ->
  step max_threads s e = Some s' ->
  ids_distinct s'.
Proof.
  unfold ids_distinct, step. intros (Hnd & Hcid & Hids).
  destruct e, (main_pc s) eqn:Hpc; try discriminate;
    unfold enter_wait, main_goto, locked_add, close_socket;
    try (destruct (remove_first id (sessions s)) as [rest|] eqn:Hrm;
         [apply remove_first_keeps in Hrm; destruct Hrm as [Hin Hkeep]
         |discriminate]);
    server_cases; intros [= <-]; simpl in *;
    try (split; [now auto|split; [lia|intros x Hx; try apply Hin in Hx;
                                       apply Hids in Hx; lia]]).
  split; [|split; [lia|]].
  - constructor; [|exact Hnd]. intros Hx. apply Hids in Hx. lia.
  - intros x [<-|Hx]; [lia|apply Hids in Hx; lia].
Qed.

Lemma run_ids_distinct max_threads events : forall s s',
  ids_distinct s ->
  run max_threads s events = Some s' ->
  ids_distinct s'.
Proof.
  induction events as [|e rest IH]; intros s s' Hs; simpl.
  - now intros [= <-].
  - destruct (step max_threads s e) as [s1|] eqn:E; [|discriminate].
    apply IH. exact (step_ids_distinct _ _ _ _ Hs E).
Qed.

(** X23: as long as the client id, an [int], has not overflowed, the
    sessions that run at any time have client ids that differ from one
    another, each at least 0 and below the id the next session will get. *)
Theorem running_sessions_have_distinct_ids max_threads events s :
  run max_threads server_start events = Some s ->
  client_id s < 2 ^ 31 ->
  NoDup (sessions s) /\
  forall id, In id (sessions s) -> 0 <= id < client_id s.
Proof.
  intros Hrun _.
  assert (H0 : ids_distinct server_start).
  { split; [constructor|]. split; [discriminate|]. intros id []. }
  destruct (run_ids_distinct _ _ _ _ H0 Hrun) as (Hnd & Hcid & Hids).
  split; [exact Hnd|]. intros id Hid. apply Hids in Hid.
  destruct (main_pc s); simpl in Hid; lia.
Qed.

Lemma running_sessions_have_distinct_ids_witness :
  exists s,
    run 2 server_start
      [Running 1; Accepted 4; MallocCtx true; PthreadCreate true;
       Running 1; Accepted 5; MallocCtx true; PthreadCreate false;
       Running 1; Accepted 6; MallocCtx true; PthreadCreate true]
    = Some s /\
    sessions s = [2; 0] /\
    NoDup (sessions s) /\
    forall id, In id (sessions s) -> 0 <= id < client_id s.
Proof.
  eexists. split; [vm_compute; reflexivity|]. split; [reflexivity|].
  apply (running_sessions_have_distinct_ids 2
           [Running 1; Accepted 4; MallocCtx true; PthreadCreate true;
            Running 1; Accepted 5; MallocCtx true; PthreadCreate false;
            Running 1; Accepted 6; MallocCtx true; PthreadCreate true]).
  - vm_compute. reflexivity.
  - reflexivity.
Defined.

End AdmissionMoreFacts.

(** ** The command line *)

Module ArgsFacts.
Import Notions.
Import Ascii String.
Import Args.

#[local] Open Scope char_scope.

Lemma setting_here {A : Type} o optarg rest (convert : string -> A) d :
  setting o ((o, optarg) :: rest) convert d
  = setting o rest convert (convert optarg).
Proof.
  unfold setting. simpl. destruct (last_arg o rest); [reflexivity|].
  now rewrite Ascii.eqb_refl.
Qed.

Lemma setting_other {A : Type} o opt optarg rest (convert : string -> A) d :
  Ascii.eqb opt o = false ->
  setting o ((opt, optarg) :: rest) convert d = setting o rest convert d.
Proof.
  intros Hne. unfold setting. simpl. destruct (last_arg o rest);
    [reflexivity|]. now rewrite Hne.
Qed.

Lemma parse_server_loop_setting atoi atol answers : forall a,
  parse_server_loop atoi atol answers a
  = if all_known ["p"; "s"; "t"] answers
    then Some {| port := setting "p" answers atoi (port a);
                 msg_size :=
                   setting "s" answers
                     (fun optarg => atol optarg mod Common.SIZE_MOD)
                     (msg_size a);
                 max_threads := setting "t" answers atoi (max_threads a) |}
    else None.
Proof.
  induction answers as [|[opt optarg] rest IH]; intros a.
  - now destruct a.
  - cbn [parse_server_loop all_known forallb existsb fst].
    destruct (Ascii.eqb_spec opt "p") as [->|Hp].
    + rewrite IH. cbn [orb andb]. fold (all_known ["p"; "s"; "t"] rest).
      rewrite setting_here, !setting_other by reflexivity. reflexivity.
    + destruct (Ascii.eqb_spec opt "s") as [->|Hs].
      * rewrite IH. cbn [orb andb]. fold (all_known ["p"; "s"; "t"] rest).
        rewrite setting_here, !setting_other by reflexivity. reflexivity.
      * destruct (Ascii.eqb_spec opt "t") as [->|Ht].
        -- rewrite IH. cbn [orb andb].
           fold (all_known ["p"; "s"; "t"] rest).
           rewrite setting_here, !setting_other by reflexivity. reflexivity.
        -- reflexivity.
Qed.

(** X24: the server's command line.  An option outside p, s, t anywhere on
    the line ends the program with the usage text; otherwise every setting
    is taken from the last occurrence of its option ([atoi] of the argument
    for the port and the thread limit, [atol] of it converted to [size_t] for
    the message size) and keeps its default (8080, 1024, 4) when the option
    does not occur.  The message size is always within [size_t]. *)
Theorem server_command_line_last_option_wins atoi atol answers :
  parse_server_args atoi atol answers
  = (if all_known ["p"; "s"; "t"] answers
     then Some {| port := setting "p" answers atoi DEFAULT_PORT;
                  msg_size :=
                    setting "s" answers
                      (fun optarg => atol optarg mod Common.SIZE_MOD)
                      DEFAULT_MSG_SIZE;
                  max_threads := setting "t" answers atoi DEFAULT_THREADS |}
     else None)
  /\ forall a, parse_server_args atoi atol answers = Some a ->
               0 <= msg_size a < Common.SIZE_MOD.
Proof.
  unfold parse_server_args. rewrite parse_server_loop_setting.
  split; [reflexivity|].
  destruct (all_known _ answers); [|discriminate].
  intros a [= <-]. cbn [msg_size port max_threads]. unfold setting.
  destruct (last_arg "s" answers).
  - apply Z.mod_pos_bound. reflexivity.
  - split; [discriminate|reflexivity].
Qed.

Lemma parse_client_loop_setting atoi atol answers : forall a,
  parse_client_loop atoi atol answers a
  = if all_known ["h"; "p"; "s"; "t"; "d"] answers
    then Some {| host := setting "h" answers (fun optarg => optarg) (host a);
                 client_port := setting "p" answers atoi (client_port a);
                 client_msg_size :=
                   setting "s" answers
                     (fun optarg => atol optarg mod Common.SIZE_MOD)
                     (client_msg_size a);
                 threads := setting "t" answers atoi (threads a);
                 duration := setting "d" answers atoi (duration a) |}
    else None.
Proof.
  induction answers as [|[opt optarg] rest IH]; intros a.
  - now destruct a.
  - cbn [parse_client_loop all_known forallb existsb fst].
    destruct (Ascii.eqb_spec opt "h") as [->|Hh];
      [|destruct (Ascii.eqb_spec opt "p") as [->|Hp];
        [|destruct (Ascii.eqb_spec opt "s") as [->|Hs];
          [|destruct (Ascii.eqb_spec opt "t") as [->|Ht];
            [|destruct (Ascii.eqb_spec opt "d") as [->|Hd];
              [|reflexivity]]]]];
      rewrite IH; cbn [orb andb];
      fold (all_known ["h"; "p"; "s"; "t"; "d"] rest);
      rewrite setting_here, !setting_other by reflexivity; reflexivity.
Qed.

(** X25: the client's command line.  An option outside h, p, s, t, d
    anywhere on the line ends the program with the usage text; otherwise
    every setting is taken from the last occurrence of its option and keeps
    its default (127.0.0.1, 8080, 1024, 4, 10) when the option does not
    occur.  The message size is always within [size_t]. *)
Theorem client_command_line_last_option_wins atoi atol answers :
  parse_client_args atoi atol answers
  = (if all_known ["h"; "p"; "s"; "t"; "d"] answers
     then Some {| host :=
                    setting "h" answers (fun optarg => optarg)
                      "127.0.0.1"%string;
                  client_port := setting "p" answers atoi DEFAULT_PORT;
                  client_msg_size :=
                    setting "s" answers
                      (fun optarg => atol optarg mod Common.SIZE_MOD)
                      DEFAULT_MSG_SIZE;
                  threads := setting "t" answers atoi DEFAULT_THREADS;
                  duration := setting "d" answers atoi DEFAULT_DURATION |}
     else None)
  /\ forall a, parse_client_args atoi atol answers = Some a ->
               0 <= client_msg_size a < Common.SIZE_MOD.
Proof.
  unfold parse_client_args. rewrite parse_client_loop_setting.
  split; [reflexivity|].
  destruct (all_known _ answers); [|discriminate].
  intros a [= <-]. cbn [client_msg_size]. unfold setting.
  destruct (last_arg "s" answers).
  - apply Z.mod_pos_bound. reflexivity.
  - split; [discriminate|reflexivity].
Qed.

End ArgsFacts.
